(** * Lyra performance stat cache: the sampled ring buffer and its registry

    A shallow embedding of [FSampledStatCache] and of the query side of
    [FLyraPerformanceStatCache] from
    [Source/LyraGame/Performance/LyraPerformanceStatSubsystem.h].

    - [double] is IEEE 754 binary64, embedded as Rocq's primitive [float].
    - [int32] values are integers of [Z]; every [++] and [-] of the source
      goes through [int32], the two's complement wrap-around.
    - [TArray<double>] is a [list double]; indexing outside the array is the
      engine's fatal range check and is embedded as [None].
    - a failed [check(...)] is fatal and is embedded as [None] as well. *)

From Stdlib Require Import ZArith Lia Floats.
From stdpp Require Import base option list gmap.

Local Open Scope Z_scope.

(** ** Machine integers *)

Definition INT32_MIN : Z := -2147483648.
Definition INT32_MAX : Z := 2147483647.

(** Wrap-around of a 32-bit signed integer. *)
Definition int32 (z : Z) : Z := (z + 2147483648) mod 4294967296 - 2147483648.

Definition in_int32 (z : Z) : Prop := INT32_MIN <= z <= INT32_MAX.

(** ** Doubles *)

Abbreviation double := float.

(** [static_cast<double>(int32)]. Every 32-bit integer is a binary64 value,
    so the conversion is exact. *)
Definition double_of_int32 (z : Z) : double :=
  if z <? 0 then PrimFloat.opp (PrimFloat.of_uint63 (Uint63.of_Z (- z)))
  else PrimFloat.of_uint63 (Uint63.of_Z z).

(** ** The engine's array *)

Module TArray.
Section Ops.
Context {A : Type}.

Definition Num (a : list A) : Z := Z.of_nat (length a).

Definition IsValidIndex (a : list A) (i : Z) : bool :=
  (0 <=? i) && (i <? Num a).

(** [a[i]] read: range-checked. *)
Definition get (a : list A) (i : Z) : option A :=
  if IsValidIndex a i then a !! Z.to_nat i else None.

(** [a[i] = x]: range-checked. *)
Definition set (a : list A) (i : Z) (x : A) : option (list A) :=
  if IsValidIndex a i then Some (<[Z.to_nat i := x]> a) else None.

Definition Empty (a : list A) : list A := [].
End Ops.

(** [AddZeroed(Count)] appends [Count] elements whose bytes are all zero:
    for a double that is [+0.0]. *)
Definition AddZeroed (a : list double) (Count : Z) : list double :=
  a ++ replicate (Z.to_nat Count) PrimFloat.zero.
End TArray.

(** ** The engine's [Algo::MinElement] and [Algo::MaxElement]

    [Algo/MinElement.h] and [Algo/MaxElement.h] belong to the engine. They
    walk the range once and keep a pointer to the best element seen so far,
    which starts as [nullptr]; [MinElement] replaces it when [Elem < *Result],
    [MaxElement] when [*Result < Elem]. The result is therefore the first
    least (greatest) element, or [nullptr] on an empty range. The pointer is
    embedded as the option of the element it points to. *)
Module Algo.
Section By.
Context {A : Type} (Pred : A -> A -> bool).

Definition MinElementBy (Range : list A) : option A :=
  foldl (fun Result Elem =>
           match Result with
           | None => Some Elem
           | Some r => if Pred Elem r then Some Elem else Result
           end) None Range.

Definition MaxElementBy (Range : list A) : option A :=
  foldl (fun Result Elem =>
           match Result with
           | None => Some Elem
           | Some r => if Pred r Elem then Some Elem else Result
           end) None Range.
End By.

Definition MinElement (Range : list double) : option double :=
  MinElementBy PrimFloat.ltb Range.
Definition MaxElement (Range : list double) : option double :=
  MaxElementBy PrimFloat.ltb Range.
End Algo.

(** ** FSampledStatCache *)

Record FSampledStatCache : Type := MkSampledStatCache {
  SampleSize : Z;            (* const int32 *)
  CurrentSampleIndex : Z;    (* int32 *)
  Samples : list double      (* TArray<double> *)
}.

Definition DefaultSampleSize : Z := 125.

(** The constructor. [None] is the fatal [check(InSampleSize > 0)]. *)
Definition FSampledStatCache_ctor (InSampleSize : Z) : option FSampledStatCache :=
  if 0 <? InSampleSize then
    Some {| SampleSize := InSampleSize;
            CurrentSampleIndex := 0;
            Samples := TArray.AddZeroed (TArray.Empty []) InSampleSize |}
  else None.

Definition RecordSample (c : FSampledStatCache) (Sample : double)
  : option FSampledStatCache :=
  Samples' ← TArray.set (Samples c) (CurrentSampleIndex c) Sample;
  let Index := int32 (CurrentSampleIndex c + 1) in
  Some {| SampleSize := SampleSize c;
          CurrentSampleIndex := if TArray.Num Samples' <=? Index then 0 else Index;
          Samples := Samples' |}.

Definition GetCurrentCachedStat (c : FSampledStatCache) : option double :=
  TArray.get (Samples c) (CurrentSampleIndex c).

Definition GetLastCachedStat (c : FSampledStatCache) : option double :=
  let LastIndex := int32 (CurrentSampleIndex c - 1) in
  let LastIndex :=
    if LastIndex <? 0 then int32 (TArray.Num (Samples c) - 1) else LastIndex in
  TArray.get (Samples c) LastIndex.

(** The body of the [for] loop of [ForEachCurrentSample], run [n] more times
    from position [Index]. The visitor [Func] has side effects in the source
    (it captures by reference); here it threads a state of type [St]. *)
Fixpoint ForEachCurrentSample_loop {St : Type} (Func : St -> double -> St)
    (c : FSampledStatCache) (n : nat) (Index : Z) (st : St) : option St :=
  match n with
  | O => Some st
  | S n' =>
      Stat ← TArray.get (Samples c) Index;
      let st' := Func st Stat in
      let Index' := int32 (Index + 1) in
      let Index'' := if Index' =? SampleSize c then 0 else Index' in
      ForEachCurrentSample_loop Func c n' Index'' st'
  end.

(** [for (int32 i = 0; i < SampleSize; i++)] runs its body
    [Z.to_nat SampleSize] times. *)
Definition ForEachCurrentSample {St : Type} (Func : St -> double -> St)
    (c : FSampledStatCache) (st : St) : option St :=
  ForEachCurrentSample_loop Func c (Z.to_nat (SampleSize c))
    (CurrentSampleIndex c) st.

Definition GetSampleSize (c : FSampledStatCache) : Z := SampleSize c.

Definition GetAverage (c : FSampledStatCache) : option double :=
  Sum ← ForEachCurrentSample (fun Sum Stat => PrimFloat.add Sum Stat) c PrimFloat.zero;
  Some (PrimFloat.div Sum (double_of_int32 (SampleSize c))).

(** [None] is the dereference of a null pointer. *)
Definition GetMin (c : FSampledStatCache) : option double :=
  Algo.MinElement (Samples c).

Definition GetMax (c : FSampledStatCache) : option double :=
  Algo.MaxElement (Samples c).

(** ** Derived notions used by the statements *)

(** A visitor that appends what it is given: the sequence of visited samples. *)
Definition VisitedSamples (c : FSampledStatCache) : option (list double) :=
  ForEachCurrentSample (fun acc Stat => acc ++ [Stat]) c [].

(** Recording a sequence of samples, first to last. *)
Fixpoint RecordSamples (c : FSampledStatCache) (vs : list double)
  : option FSampledStatCache :=
  match vs with
  | [] => Some c
  | v :: vs' => c' ← RecordSample c v; RecordSamples c' vs'
  end.

(** A buffer built with capacity [C] that then recorded [vs]. *)
Definition Recorded (C : Z) (vs : list double) : option FSampledStatCache :=
  c ← FSampledStatCache_ctor C; RecordSamples c vs.

(** The class invariant. *)
Record CacheInv (c : FSampledStatCache) : Prop := MkCacheInv {
  inv_size : 0 < SampleSize c <= INT32_MAX;
  inv_num : TArray.Num (Samples c) = SampleSize c;
  inv_index : 0 <= CurrentSampleIndex c < SampleSize c
}.

(** The stored samples read from the write position round to the slot
    before it. *)
Definition Window (c : FSampledStatCache) : list double :=
  drop (Z.to_nat (CurrentSampleIndex c)) (Samples c)
    ++ take (Z.to_nat (CurrentSampleIndex c)) (Samples c).

(** ** FLyraPerformanceStatCache: the query side

    [ELyraDisplayablePerformanceStat] is an [enum class] over [uint8] declared
    in [LyraPerformanceStatTypes.h]; a key is embedded as the number under
    the enumerator. *)
Abbreviation ELyraDisplayablePerformanceStat := N (only parsing).

Record FLyraPerformanceStatCache : Type := MkPerformanceStatCache {
  PerfStateCache : gmap ELyraDisplayablePerformanceStat FSampledStatCache
}.

(** Modelled from the spec: the body of
    [FLyraPerformanceStatCache::GetCachedStatData] is in the [.cpp] file, of
    which the header only has the declaration. The spec: "returns a non-owning
    reference to the buffer for richer queries, or an absent/null result if
    kind is untracked". *)
Definition GetCachedStatData (r : FLyraPerformanceStatCache)
    (Stat : ELyraDisplayablePerformanceStat) : option FSampledStatCache :=
  PerfStateCache r !! Stat.

(** Modelled from the spec: the body of
    [FLyraPerformanceStatCache::GetCachedStat] is in the [.cpp] file as well.
    The spec: "returns currentValue() of the buffer for kind, or 0.0 if kind
    is untracked". *)
Definition GetCachedStat (r : FLyraPerformanceStatCache)
    (Stat : ELyraDisplayablePerformanceStat) : option double :=
  match GetCachedStatData r Stat with
  | Some Cache => GetCurrentCachedStat Cache
  | None => Some PrimFloat.zero
  end.

(** ** Calls and what they answer

    The query methods are [const] member functions: they compute from the
    object and hand it back as it was. A call sequence threads the object
    through every call. *)

Inductive Answer : Type :=
| ADouble (x : option double)
| AInt (n : Z)
| ASamples (xs : option (list double))
| AData (p : option FSampledStatCache).

Inductive CacheQuery : Type :=
| QGetCurrentCachedStat
| QGetLastCachedStat
| QGetAverage
| QGetMin
| QGetMax
| QGetSampleSize
| QForEachCurrentSample.

Definition AskCache (q : CacheQuery) (c : FSampledStatCache) : Answer :=
  match q with
  | QGetCurrentCachedStat => ADouble (GetCurrentCachedStat c)
  | QGetLastCachedStat => ADouble (GetLastCachedStat c)
  | QGetAverage => ADouble (GetAverage c)
  | QGetMin => ADouble (GetMin c)
  | QGetMax => ADouble (GetMax c)
  | QGetSampleSize => AInt (GetSampleSize c)
  | QForEachCurrentSample => ASamples (VisitedSamples c)
  end.

Inductive CacheCall : Type :=
| CallRecordSample (Sample : double)
| CallQuery (q : CacheQuery).

(** One call on a buffer: what it answers, and the buffer after it. *)
Definition StepCache (k : CacheCall) (c : FSampledStatCache)
  : option (list Answer * FSampledStatCache) :=
  match k with
  | CallRecordSample Sample => c' ← RecordSample c Sample; Some ([], c')
  | CallQuery q => Some ([AskCache q c], c)
  end.

Fixpoint RunCache (ks : list CacheCall) (c : FSampledStatCache)
  : option (list Answer * FSampledStatCache) :=
  match ks with
  | [] => Some ([], c)
  | k :: ks' =>
      '(out, c') ← StepCache k c;
      '(outs, c'') ← RunCache ks' c';
      Some (out ++ outs, c'')
  end.

(** The samples a call sequence records, in order. *)
Definition RecordedBy (ks : list CacheCall) : list double :=
  omap (fun k => match k with CallRecordSample v => Some v | CallQuery _ => None end) ks.

Inductive StatQuery : Type :=
| QGetCachedStat (Stat : ELyraDisplayablePerformanceStat)
| QGetCachedStatData (Stat : ELyraDisplayablePerformanceStat)
| QOnCache (Stat : ELyraDisplayablePerformanceStat) (q : CacheQuery).

(** [QOnCache Stat q] asks [q] through the pointer of [GetCachedStatData],
    when that pointer is not null. *)
Definition AskStat (q : StatQuery) (r : FLyraPerformanceStatCache) : Answer :=
  match q with
  | QGetCachedStat Stat => ADouble (GetCachedStat r Stat)
  | QGetCachedStatData Stat => AData (GetCachedStatData r Stat)
  | QOnCache Stat q' =>
      match GetCachedStatData r Stat with
      | Some Cache => AskCache q' Cache
      | None => AData None
      end
  end.

Definition StepStat (q : StatQuery) (r : FLyraPerformanceStatCache)
  : Answer * FLyraPerformanceStatCache :=
  (AskStat q r, r).

Fixpoint RunStat (qs : list StatQuery) (r : FLyraPerformanceStatCache)
  : list Answer * FLyraPerformanceStatCache :=
  match qs with
  | [] => ([], r)
  | q :: qs' =>
      let '(out, r') := StepStat q r in
      let '(outs, r'') := RunStat qs' r' in
      (out :: outs, r'')
  end.

(** ** Member functions as transformers of their object

    The member functions once more, statement by statement, as transformers
    of the object they are called on: every read and every write of a member
    is a step of its own, and a step may change the object. [None] is a fatal
    check. *)

Definition Method (Obj A : Type) : Type := Obj -> option (A * Obj).

#[global] Instance Method_ret {Obj : Type} : MRet (Method Obj) :=
  fun A a o => Some (a, o).

#[global] Instance Method_bind {Obj : Type} : MBind (Method Obj) :=
  fun A B k m o =>
    match m o with
    | Some (a, o') => k a o'
    | None => None
    end.

(** Dereferencing a pointer; null is fatal. *)
Definition deref {Obj A : Type} (p : option A) : Method Obj A :=
  fun o => match p with Some a => Some (a, o) | None => None end.

(** The members of [FSampledStatCache]. *)

Definition load_SampleSize : Method FSampledStatCache Z :=
  fun c => Some (SampleSize c, c).

Definition load_CurrentSampleIndex : Method FSampledStatCache Z :=
  fun c => Some (CurrentSampleIndex c, c).

Definition store_CurrentSampleIndex (i : Z) : Method FSampledStatCache unit :=
  fun c => Some (tt, {| SampleSize := SampleSize c;
                        CurrentSampleIndex := i;
                        Samples := Samples c |}).

Definition load_Samples : Method FSampledStatCache (list double) :=
  fun c => Some (Samples c, c).

(** [Samples.Num()] *)
Definition Samples_Num : Method FSampledStatCache Z :=
  fun c => Some (TArray.Num (Samples c), c).

(** [Samples[i]] read *)
Definition Samples_read (i : Z) : Method FSampledStatCache double :=
  fun c => match TArray.get (Samples c) i with
           | Some x => Some (x, c)
           | None => None
           end.

(** [Samples[i] = x] *)
Definition Samples_write (i : Z) (x : double) : Method FSampledStatCache unit :=
  fun c => match TArray.set (Samples c) i x with
           | Some Samples' => Some (tt, {| SampleSize := SampleSize c;
                                          CurrentSampleIndex := CurrentSampleIndex c;
                                          Samples := Samples' |})
           | None => None
           end.

Definition RecordSample_m (Sample : double) : Method FSampledStatCache unit :=
  i ← load_CurrentSampleIndex;
  _ ← Samples_write i Sample;
  i ← load_CurrentSampleIndex;
  _ ← store_CurrentSampleIndex (int32 (i + 1));
  i ← load_CurrentSampleIndex;
  n ← Samples_Num;
  if n <=? i then store_CurrentSampleIndex 0 else mret tt.

Definition GetCurrentCachedStat_m : Method FSampledStatCache double :=
  i ← load_CurrentSampleIndex;
  Samples_read i.

Definition GetLastCachedStat_m : Method FSampledStatCache double :=
  i ← load_CurrentSampleIndex;
  let LastIndex := int32 (i - 1) in
  LastIndex ← (if LastIndex <? 0
               then n ← Samples_Num; mret (int32 (n - 1))
               else mret LastIndex);
  Samples_read LastIndex.

Fixpoint ForEachCurrentSample_loop_m {St : Type} (Func : St -> double -> St)
    (n : nat) (Index : Z) (st : St) : Method FSampledStatCache St :=
  match n with
  | O => mret st
  | S n' =>
      Stat ← Samples_read Index;
      let st' := Func st Stat in
      let Index' := int32 (Index + 1) in
      Size ← load_SampleSize;
      let Index'' := if Index' =? Size then 0 else Index' in
      ForEachCurrentSample_loop_m Func n' Index'' st'
  end.

(** The visitor is handed each sample by value. *)
Definition ForEachCurrentSample_m {St : Type} (Func : St -> double -> St)
    (st : St) : Method FSampledStatCache St :=
  Index ← load_CurrentSampleIndex;
  Size ← load_SampleSize;
  ForEachCurrentSample_loop_m Func (Z.to_nat Size) Index st.

Definition GetSampleSize_m : Method FSampledStatCache Z := load_SampleSize.

Definition GetAverage_m : Method FSampledStatCache double :=
  Sum ← ForEachCurrentSample_m (fun Sum Stat => PrimFloat.add Sum Stat) PrimFloat.zero;
  Size ← load_SampleSize;
  mret (PrimFloat.div Sum (double_of_int32 Size)).

Definition GetMin_m : Method FSampledStatCache double :=
  Range ← load_Samples;
  deref (Algo.MinElement Range).

Definition GetMax_m : Method FSampledStatCache double :=
  Range ← load_Samples;
  deref (Algo.MaxElement Range).

(** What a query call returns. *)
Inductive Value : Type :=
| VDouble (x : double)
| VInt (n : Z)
| VSamples (xs : list double)
| VData (p : option FSampledStatCache).

Definition CallQuery_m (q : CacheQuery) : Method FSampledStatCache Value :=
  match q with
  | QGetCurrentCachedStat => x ← GetCurrentCachedStat_m; mret (VDouble x)
  | QGetLastCachedStat => x ← GetLastCachedStat_m; mret (VDouble x)
  | QGetAverage => x ← GetAverage_m; mret (VDouble x)
  | QGetMin => x ← GetMin_m; mret (VDouble x)
  | QGetMax => x ← GetMax_m; mret (VDouble x)
  | QGetSampleSize => n ← GetSampleSize_m; mret (VInt n)
  | QForEachCurrentSample =>
      xs ← ForEachCurrentSample_m (fun acc Stat => acc ++ [Stat]) [];
      mret (VSamples xs)
  end.

(** The members of [FLyraPerformanceStatCache]. *)

(** [PerfStateCache.Find(Stat)]: a pointer to the buffer under [Stat], or
    null; the map is not touched. *)
Definition PerfStateCache_Find (Stat : ELyraDisplayablePerformanceStat)
  : Method FLyraPerformanceStatCache (option FSampledStatCache) :=
  fun r => Some (PerfStateCache r !! Stat, r).

(** A member function called through the pointer to the buffer under [Stat]:
    it works on the buffer inside the map, so what it leaves of the buffer is
    what the map holds afterwards. *)
Definition through_pointer {A : Type} (Stat : ELyraDisplayablePerformanceStat)
    (m : Method FSampledStatCache A) : Method FLyraPerformanceStatCache A :=
  fun r =>
    match PerfStateCache r !! Stat with
    | Some Cache =>
        match m Cache with
        | Some (a, Cache') =>
            Some (a, {| PerfStateCache := <[Stat := Cache']> (PerfStateCache r) |})
        | None => None
        end
    | None => None
    end.

(** Modelled from the spec: [GetCachedStatData], whose body is in the [.cpp]
    file, as a transformer of the registry. The spec: "returns a non-owning
    reference to the buffer for richer queries, or an absent/null result if
    kind is untracked"; "querying an absent key never creates one
    implicitly". *)
Definition GetCachedStatData_m (Stat : ELyraDisplayablePerformanceStat)
  : Method FLyraPerformanceStatCache (option FSampledStatCache) :=
  PerfStateCache_Find Stat.

(** Modelled from the spec: [GetCachedStat], whose body is in the [.cpp]
    file, as a transformer of the registry. The spec: "returns currentValue()
    of the buffer for kind, or 0.0 if kind is untracked". *)
Definition GetCachedStat_m (Stat : ELyraDisplayablePerformanceStat)
  : Method FLyraPerformanceStatCache double :=
  Cache ← GetCachedStatData_m Stat;
  match Cache with
  | Some _ => through_pointer Stat GetCurrentCachedStat_m
  | None => mret PrimFloat.zero
  end.

(** [QOnCache Stat q] is the caller's
    [if (Cache = GetCachedStatData(Stat)) Cache->q()]. *)
Definition CallStatQuery_m (q : StatQuery) : Method FLyraPerformanceStatCache Value :=
  match q with
  | QGetCachedStat Stat => x ← GetCachedStat_m Stat; mret (VDouble x)
  | QGetCachedStatData Stat => p ← GetCachedStatData_m Stat; mret (VData p)
  | QOnCache Stat q' =>
      Cache ← GetCachedStatData_m Stat;
      match Cache with
      | Some _ => through_pointer Stat (CallQuery_m q')
      | None => mret (VData None)
      end
  end.

(** A sequence of calls, one after the other on the same object. *)
Fixpoint CallAll_m {Obj Q A : Type} (call : Q -> Method Obj A) (qs : list Q)
  : Method Obj (list A) :=
  match qs with
  | [] => mret []
  | q :: qs' =>
      a ← call q;
      rest ← CallAll_m call qs';
      mret (a :: rest)
  end.

(** * Properties *)

(** ** 32-bit arithmetic and array access *)

Lemma int32_small (z : Z) : in_int32 z -> int32 z = z.
Proof.
  unfold in_int32, INT32_MIN, INT32_MAX, int32. intros Hz.
  rewrite Z.mod_small; lia.
Qed.

Lemma TArray_get_valid {A} (a : list A) (i : Z) :
  0 <= i < TArray.Num a -> TArray.get a i = a !! Z.to_nat i.
Proof.
  intros Hi. unfold TArray.get, TArray.IsValidIndex.
  replace (0 <=? i) with true by (symmetry; apply Z.leb_le; lia).
  replace (i <? TArray.Num a) with true by (symmetry; apply Z.ltb_lt; lia).
  reflexivity.
Qed.

Lemma TArray_get_is_Some {A} (a : list A) (i : Z) :
  0 <= i < TArray.Num a -> is_Some (TArray.get a i).
Proof.
  intros Hi. rewrite TArray_get_valid by done.
  apply lookup_lt_is_Some. unfold TArray.Num in Hi. lia.
Qed.

Lemma TArray_set_valid {A} (a : list A) (i : Z) (x : A) :
  0 <= i < TArray.Num a -> TArray.set a i x = Some (<[Z.to_nat i := x]> a).
Proof.
  intros Hi. unfold TArray.set, TArray.IsValidIndex.
  replace (0 <=? i) with true by (symmetry; apply Z.leb_le; lia).
  replace (i <? TArray.Num a) with true by (symmetry; apply Z.ltb_lt; lia).
  reflexivity.
Qed.

Lemma TArray_Num_insert {A} (a : list A) (i : nat) (x : A) :
  TArray.Num (<[i := x]> a) = TArray.Num a.
Proof. unfold TArray.Num. by rewrite length_insert. Qed.

(** ** The order of doubles *)

Section FloatOrder.

Ltac cmp_cases :=
  repeat match goal with
  | |- context [Z.compare ?a ?b] => destruct (Z.compare_spec a b)
  | |- context [Pos.compare_cont Eq ?a ?b] =>
      change (Pos.compare_cont Eq a b) with (Pos.compare a b);
      destruct (Pos.compare_spec a b)
  end.

Ltac by_cases := simpl; try congruence; cmp_cases; simpl; try congruence; try lia.

Lemma SFltb_trans (x y z : spec_float) :
  SFltb x y = true -> SFltb y z = true -> SFltb x z = true.
Proof.
  unfold SFltb, SFcompare.
  destruct x as [[]|[]| |[] m1 e1], y as [[]|[]| |[] m2 e2],
           z as [[]|[]| |[] m3 e3]; by_cases.
Qed.

Lemma SFltb_irrefl (x : spec_float) : SFltb x x = false.
Proof.
  unfold SFltb, SFcompare. destruct x as [[]|[]| |[] m1 e1]; by_cases.
Qed.

Lemma SFleb_of_not_ltb (x y : spec_float) :
  x <> S754_nan -> y <> S754_nan -> SFltb x y = false -> SFleb y x = true.
Proof.
  unfold SFltb, SFleb, SFcompare.
  destruct x as [[]|[]| |[] m1 e1], y as [[]|[]| |[] m2 e2]; by_cases.
Qed.

Lemma ltb_irrefl (x : double) : PrimFloat.ltb x x = false.
Proof. rewrite ltb_spec. apply SFltb_irrefl. Qed.

Lemma ltb_trans (x y z : double) :
  PrimFloat.ltb x y = true -> PrimFloat.ltb y z = true -> PrimFloat.ltb x z = true.
Proof. rewrite !ltb_spec. apply SFltb_trans. Qed.

Lemma not_nan_Prim2SF (x : double) :
  PrimFloat.is_nan x = false -> Prim2SF x <> S754_nan.
Proof.
  unfold PrimFloat.is_nan. rewrite FloatAxioms.eqb_spec.
  intros H E. rewrite E in H. discriminate.
Qed.

Lemma leb_of_not_ltb (x y : double) :
  PrimFloat.is_nan x = false -> PrimFloat.is_nan y = false ->
  PrimFloat.ltb x y = false -> PrimFloat.leb y x = true.
Proof.
  intros Hx Hy. rewrite ltb_spec, leb_spec.
  apply SFleb_of_not_ltb; by apply not_nan_Prim2SF.
Qed.

End FloatOrder.

(** ** First least and first greatest element of a range *)

Section MinMaxElement.
Context {A : Type} (Pred : A -> A -> bool).
Hypothesis Pred_irrefl : forall x, Pred x x = false.
Hypothesis Pred_trans :
  forall x y z, Pred x y = true -> Pred y z = true -> Pred x z = true.

Lemma MinElementBy_snoc (l : list A) (x : A) :
  Algo.MinElementBy Pred (l ++ [x]) =
  match Algo.MinElementBy Pred l with
  | None => Some x
  | Some r => if Pred x r then Some x else Some r
  end.
Proof. unfold Algo.MinElementBy. rewrite foldl_snoc. by destruct (foldl _ _ _). Qed.

Lemma MaxElementBy_snoc (l : list A) (x : A) :
  Algo.MaxElementBy Pred (l ++ [x]) =
  match Algo.MaxElementBy Pred l with
  | None => Some x
  | Some r => if Pred r x then Some x else Some r
  end.
Proof. unfold Algo.MaxElementBy. rewrite foldl_snoc. by destruct (foldl _ _ _). Qed.

Lemma MinElementBy_None (l : list A) :
  Algo.MinElementBy Pred l = None -> l = [].
Proof.
  destruct l as [|x l _] using rev_ind; [done|].
  rewrite MinElementBy_snoc.
  destruct (Algo.MinElementBy Pred l); [destruct (Pred x a)|]; done.
Qed.

Lemma MaxElementBy_None (l : list A) :
  Algo.MaxElementBy Pred l = None -> l = [].
Proof.
  destruct l as [|x l _] using rev_ind; [done|].
  rewrite MaxElementBy_snoc.
  destruct (Algo.MaxElementBy Pred l); [destruct (Pred a x)|]; done.
Qed.

Lemma MinElementBy_least (l : list A) (m : A) :
  Algo.MinElementBy Pred l = Some m ->
  m ∈ l /\ forall x, x ∈ l -> Pred x m = false.
Proof.
  revert m. induction l as [|x l IH] using rev_ind; intros m; [done|].
  rewrite MinElementBy_snoc.
  destruct (Algo.MinElementBy Pred l) as [r|] eqn:Hr.
  - destruct (IH r eq_refl) as [Hin Hle].
    destruct (Pred x r) eqn:Hx; intros [= <-].
    + split; [apply elem_of_app; right; by apply list_elem_of_singleton|].
      intros y [Hy| ->%list_elem_of_singleton]%elem_of_app.
      * destruct (Pred y x) eqn:Hyx; [|done].
        rewrite <- (Hle y Hy). symmetry. by apply Pred_trans with x.
      * apply Pred_irrefl.
    + split; [apply elem_of_app; by left|].
      intros y [Hy| ->%list_elem_of_singleton]%elem_of_app; auto.
  - apply MinElementBy_None in Hr as ->. intros [= <-].
    split; [by apply list_elem_of_singleton|].
    intros y ->%list_elem_of_singleton. apply Pred_irrefl.
Qed.

Lemma MaxElementBy_greatest (l : list A) (m : A) :
  Algo.MaxElementBy Pred l = Some m ->
  m ∈ l /\ forall x, x ∈ l -> Pred m x = false.
Proof.
  revert m. induction l as [|x l IH] using rev_ind; intros m; [done|].
  rewrite MaxElementBy_snoc.
  destruct (Algo.MaxElementBy Pred l) as [r|] eqn:Hr.
  - destruct (IH r eq_refl) as [Hin Hle].
    destruct (Pred r x) eqn:Hx; intros [= <-].
    + split; [apply elem_of_app; right; by apply list_elem_of_singleton|].
      intros y [Hy| ->%list_elem_of_singleton]%elem_of_app.
      * destruct (Pred x y) eqn:Hyx; [|done].
        rewrite <- (Hle y Hy). symmetry. by apply Pred_trans with x.
      * apply Pred_irrefl.
    + split; [apply elem_of_app; by left|].
      intros y [Hy| ->%list_elem_of_singleton]%elem_of_app; auto.
  - apply MaxElementBy_None in Hr as ->. intros [= <-].
    split; [by apply list_elem_of_singleton|].
    intros y ->%list_elem_of_singleton. apply Pred_irrefl.
Qed.

End MinMaxElement.

(** ** The invariant: established by the constructor, kept by [RecordSample] *)

Lemma FSampledStatCache_ctor_pos (C : Z) :
  0 < C ->
  FSampledStatCache_ctor C =
  Some {| SampleSize := C; CurrentSampleIndex := 0;
          Samples := replicate (Z.to_nat C) PrimFloat.zero |}.
Proof.
  intros HC. unfold FSampledStatCache_ctor.
  destruct (Z.ltb_spec 0 C); [reflexivity | lia].
Qed.

Lemma FSampledStatCache_ctor_inv (C : Z) (c : FSampledStatCache) :
  in_int32 C -> FSampledStatCache_ctor C = Some c -> CacheInv c.
Proof.
  intros [_ Hmax]. unfold FSampledStatCache_ctor.
  destruct (Z.ltb_spec 0 C) as [HC|]; [|done]. intros [= <-].
  split; simpl; [lia | | lia].
  unfold TArray.AddZeroed, TArray.Empty, TArray.Num. simpl.
  rewrite length_replicate. lia.
Qed.

Lemma RecordSample_eq (c : FSampledStatCache) (v : double) :
  CacheInv c ->
  RecordSample c v =
  Some {| SampleSize := SampleSize c;
          CurrentSampleIndex := (CurrentSampleIndex c + 1) mod SampleSize c;
          Samples := <[Z.to_nat (CurrentSampleIndex c) := v]> (Samples c) |}.
Proof.
  intros [Hsz Hnum Hidx]. unfold RecordSample.
  rewrite TArray_set_valid by lia. simpl.
  rewrite TArray_Num_insert, Hnum.
  rewrite int32_small by (unfold in_int32, INT32_MIN; lia).
  do 2 f_equal.
  destruct (Z.leb_spec (SampleSize c) (CurrentSampleIndex c + 1)).
  - replace (CurrentSampleIndex c + 1) with (SampleSize c) by lia.
    by rewrite Z_mod_same_full.
  - by rewrite Z.mod_small by lia.
Qed.

Lemma RecordSample_inv (c c' : FSampledStatCache) (v : double) :
  CacheInv c -> RecordSample c v = Some c' ->
  CacheInv c' /\ SampleSize c' = SampleSize c
  /\ length (Samples c') = length (Samples c).
Proof.
  intros Hinv. rewrite RecordSample_eq by done. intros [= <-].
  destruct Hinv as [Hsz Hnum Hidx]. simpl.
  split; [split; simpl|]; rewrite ?TArray_Num_insert, ?length_insert; auto.
  apply Z.mod_pos_bound. lia.
Qed.

Lemma RecordSamples_inv (vs : list double) (c : FSampledStatCache) :
  CacheInv c ->
  exists c', RecordSamples c vs = Some c' /\ CacheInv c'
             /\ SampleSize c' = SampleSize c
             /\ length (Samples c') = length (Samples c).
Proof.
  revert c. induction vs as [|v vs IH]; intros c Hinv; simpl.
  - by exists c.
  - pose proof (RecordSample_eq c v Hinv) as H1.
    destruct (RecordSample_inv _ _ _ Hinv H1) as (Hinv1 & Hs1 & Hl1).
    destruct (IH _ Hinv1) as (c' & Hrun & Hinv' & Hs' & Hl').
    rewrite H1. simpl. exists c'.
    split; [done|]. split; [done|]. split; [by rewrite Hs' | by rewrite Hl'].
Qed.

Lemma RecordSamples_app (vs ws : list double) (c : FSampledStatCache) :
  RecordSamples c (vs ++ ws) = RecordSamples c vs ≫= fun c' => RecordSamples c' ws.
Proof.
  revert c. induction vs as [|v vs IH]; intros c; simpl; [done|].
  destruct (RecordSample c v) as [c1|]; simpl; [apply IH | done].
Qed.

(** ** The traversal *)

Section Traversal.
Context {St : Type} (Func : St -> double -> St).
Variable c : FSampledStatCache.
Hypothesis Hinv : CacheInv c.

(** From [Index], [n] steps that stay inside the array visit
    [Samples[Index .. Index + n)]. *)
Lemma ForEachCurrentSample_loop_prefix (n : nat) (Index : Z) (st : St) :
  0 <= Index -> Index + Z.of_nat n <= SampleSize c ->
  ForEachCurrentSample_loop Func c n Index st =
  Some (foldl Func st (take n (drop (Z.to_nat Index) (Samples c)))).
Proof.
  destruct Hinv as [Hsz Hnum Hidx].
  revert Index st. induction n as [|n IH]; intros Index st H0 Hn; simpl.
  - done.
  - rewrite TArray_get_valid by lia.
    destruct (lookup_lt_is_Some_2 (Samples c) (Z.to_nat Index)) as [x Hx].
    { unfold TArray.Num in Hnum. lia. }
    rewrite Hx. simpl.
    rewrite (drop_S _ _ _ Hx). simpl.
    rewrite int32_small by (unfold in_int32, INT32_MIN; lia).
    destruct (Z.eqb_spec (Index + 1) (SampleSize c)) as [Heq|Hne].
    + assert (n = 0%nat) as -> by lia. done.
    + rewrite IH by lia.
      by replace (Z.to_nat (Index + 1)) with (S (Z.to_nat Index)) by lia.
Qed.

(** From [Index], the steps up to the end of the array visit
    [Samples[Index ..]] and go on from position 0. *)
Lemma ForEachCurrentSample_loop_wrap (n m : nat) (Index : Z) (st : St) :
  0 <= Index -> Index + Z.of_nat n = SampleSize c -> (0 < n)%nat ->
  ForEachCurrentSample_loop Func c (n + m) Index st =
  ForEachCurrentSample_loop Func c m 0
    (foldl Func st (drop (Z.to_nat Index) (Samples c))).
Proof.
  destruct Hinv as [Hsz Hnum Hidx].
  revert Index st. induction n as [|n IH]; intros Index st H0 Hn Hpos; [lia|].
  simpl.
  rewrite TArray_get_valid by lia.
  destruct (lookup_lt_is_Some_2 (Samples c) (Z.to_nat Index)) as [x Hx].
  { unfold TArray.Num in Hnum. lia. }
  rewrite Hx. simpl.
  rewrite (drop_S _ _ _ Hx). simpl.
  rewrite int32_small by (unfold in_int32, INT32_MIN; lia).
  destruct (Z.eqb_spec (Index + 1) (SampleSize c)) as [Heq|Hne].
  - assert (n = 0%nat) as -> by lia. simpl.
    rewrite drop_ge; [done|]. unfold TArray.Num in Hnum. lia.
  - rewrite IH by lia.
    by replace (Z.to_nat (Index + 1)) with (S (Z.to_nat Index)) by lia.
Qed.

Lemma ForEachCurrentSample_Window (st : St) :
  ForEachCurrentSample Func c st = Some (foldl Func st (Window c)).
Proof.
  pose proof Hinv as [Hsz Hnum Hidx].
  unfold ForEachCurrentSample, Window.
  set (i := CurrentSampleIndex c) in *.
  replace (Z.to_nat (SampleSize c))
    with (Z.to_nat (SampleSize c - i) + Z.to_nat i)%nat by lia.
  rewrite ForEachCurrentSample_loop_wrap by lia.
  rewrite ForEachCurrentSample_loop_prefix by lia.
  rewrite foldl_app. simpl. by rewrite drop_0.
Qed.

End Traversal.

(** ** The window *)

Section WindowFacts.
Variable c : FSampledStatCache.
Hypothesis Hinv : CacheInv c.

Lemma Window_length : length (Window c) = Z.to_nat (SampleSize c).
Proof.
  destruct Hinv as [Hsz Hnum Hidx]. unfold Window, TArray.Num in *.
  rewrite length_app, length_drop, length_take. lia.
Qed.

Lemma Window_lookup (j : nat) :
  (j < Z.to_nat (SampleSize c))%nat ->
  Window c !! j =
  Samples c !! Z.to_nat ((CurrentSampleIndex c + Z.of_nat j) mod SampleSize c).
Proof.
  destruct Hinv as [Hsz Hnum Hidx]. unfold Window, TArray.Num in *. intros Hj.
  set (i := CurrentSampleIndex c) in *.
  destruct (Z.lt_ge_cases (i + Z.of_nat j) (SampleSize c)) as [Hlt|Hge].
  - rewrite lookup_app_l by (rewrite length_drop; lia).
    rewrite lookup_drop, Z.mod_small by lia. f_equal. lia.
  - rewrite lookup_app_r by (rewrite length_drop; lia).
    rewrite length_drop, lookup_take_lt by lia.
    replace ((i + Z.of_nat j) mod SampleSize c)
      with (i + Z.of_nat j - SampleSize c).
    + f_equal. lia.
    + apply Z.mod_unique with 1; lia.
Qed.

Lemma Window_elem_of (x : double) : x ∈ Window c <-> x ∈ Samples c.
Proof.
  unfold Window. rewrite elem_of_app.
  rewrite <- (take_drop (Z.to_nat (CurrentSampleIndex c)) (Samples c)) at 3.
  rewrite elem_of_app. tauto.
Qed.

Lemma Window_RecordSample (v : double) (c' : FSampledStatCache) :
  RecordSample c v = Some c' -> Window c' = drop 1 (Window c) ++ [v].
Proof.
  rewrite RecordSample_eq by done. intros [= <-].
  destruct Hinv as [Hsz Hnum Hidx]. unfold Window, TArray.Num in *. simpl.
  set (i := CurrentSampleIndex c) in *.
  destruct (lookup_lt_is_Some_2 (Samples c) (Z.to_nat i)) as [x Hx]; [lia|].
  rewrite (drop_S _ _ _ Hx). simpl.
  destruct (Z.eq_dec (i + 1) (SampleSize c)) as [Heq|Hne].
  - rewrite Heq, Z_mod_same_full. simpl. rewrite drop_0, app_nil_r.
    rewrite insert_take_drop by lia.
    rewrite (drop_ge _ (S (Z.to_nat i))) by lia. done.
  - rewrite Z.mod_small by lia.
    replace (Z.to_nat (i + 1)) with (S (Z.to_nat i)) by lia.
    rewrite drop_insert_lt by lia.
    rewrite (take_S_r _ _ v) by (apply list_lookup_insert_eq; lia).
    rewrite take_insert_ge by lia. by rewrite app_assoc.
Qed.

End WindowFacts.

(** After recording [vs] the window is the old one followed by [vs], less
    its first [length vs] elements. *)
Lemma Window_RecordSamples (vs : list double) (c c' : FSampledStatCache) :
  CacheInv c -> RecordSamples c vs = Some c' ->
  Window c' = drop (length vs) (Window c ++ vs).
Proof.
  revert c. induction vs as [|v vs IH]; intros c Hinv; simpl.
  - intros [= <-]. by rewrite app_nil_r.
  - pose proof (RecordSample_eq c v Hinv) as H1. rewrite H1. simpl. intros Hrun.
    destruct (RecordSample_inv _ _ _ Hinv H1) as (Hinv1 & _ & _).
    rewrite (IH _ Hinv1 Hrun), (Window_RecordSample c Hinv v _ H1).
    pose proof (Window_length c Hinv) as Hlen. destruct Hinv as [Hsz _ _].
    destruct (Window c) as [|w ws]; simpl in *; [lia|].
    by rewrite <- app_assoc.
Qed.

Lemma Window_ctor (C : Z) (c : FSampledStatCache) :
  FSampledStatCache_ctor C = Some c ->
  Window c = replicate (Z.to_nat C) PrimFloat.zero.
Proof.
  unfold FSampledStatCache_ctor. destruct (0 <? C); [|done]. intros [= <-].
  unfold Window. simpl. by rewrite app_nil_r.
Qed.

(** A built buffer exists for every positive 32-bit capacity, whatever is
    recorded, and its window is the last [C] of the zero fill followed by the
    recorded samples. *)
Lemma Recorded_Some (C : Z) (vs : list double) :
  0 < C <= INT32_MAX ->
  exists c, Recorded C vs = Some c /\ CacheInv c /\ SampleSize c = C
            /\ Window c = drop (length vs) (replicate (Z.to_nat C) PrimFloat.zero ++ vs).
Proof.
  intros HC. unfold Recorded.
  rewrite FSampledStatCache_ctor_pos by lia. simpl.
  set (c0 := {| SampleSize := C |}).
  assert (FSampledStatCache_ctor C = Some c0) as H0
    by (apply FSampledStatCache_ctor_pos; lia).
  assert (CacheInv c0) as Hinv0.
  { apply (FSampledStatCache_ctor_inv C); [unfold in_int32, INT32_MIN; lia | done]. }
  destruct (RecordSamples_inv vs c0 Hinv0) as (c & Hrun & Hinv & Hs & _).
  exists c. split; [done|]. split; [done|]. split; [done|].
  by rewrite (Window_RecordSamples vs c0 c Hinv0 Hrun), (Window_ctor C c0 H0).
Qed.

Lemma drop_zero_fill {A} (z : A) (n : nat) (vs : list A) :
  (n <= length vs)%nat ->
  drop (length vs) (replicate n z ++ vs) = drop (length vs - n) vs.
Proof.
  intros Hn. rewrite drop_app, length_replicate, drop_replicate.
  replace (n - length vs)%nat with 0%nat by lia. done.
Qed.

(** ** What the queries return *)

Lemma foldl_snoc_collect {A} (acc l : list A) :
  foldl (fun acc x => acc ++ [x]) acc l = acc ++ l.
Proof.
  revert acc. induction l as [|x l IH]; intros acc; simpl.
  - by rewrite app_nil_r.
  - by rewrite IH, <- app_assoc.
Qed.

Lemma VisitedSamples_Window (c : FSampledStatCache) :
  CacheInv c -> VisitedSamples c = Some (Window c).
Proof.
  intros Hinv. unfold VisitedSamples.
  rewrite ForEachCurrentSample_Window by done.
  by rewrite foldl_snoc_collect.
Qed.

Lemma Window_Permutation (c : FSampledStatCache) : Window c ≡ₚ Samples c.
Proof.
  unfold Window.
  rewrite <- (take_drop (Z.to_nat (CurrentSampleIndex c)) (Samples c)) at 3.
  apply Permutation_app_comm.
Qed.

Lemma GetCurrentCachedStat_lookup (c : FSampledStatCache) :
  CacheInv c ->
  GetCurrentCachedStat c = Samples c !! Z.to_nat (CurrentSampleIndex c).
Proof.
  intros [Hsz Hnum Hidx]. unfold GetCurrentCachedStat.
  apply TArray_get_valid. lia.
Qed.

Lemma GetCurrentCachedStat_head (c : FSampledStatCache) :
  CacheInv c -> GetCurrentCachedStat c = head (Window c).
Proof.
  intros Hinv. rewrite GetCurrentCachedStat_lookup by done.
  rewrite head_lookup, Window_lookup by (destruct Hinv; lia || done).
  destruct Hinv as [Hsz Hnum Hidx].
  by rewrite Z.add_0_r, Z.mod_small by lia.
Qed.

Lemma GetLastCachedStat_lookup (c : FSampledStatCache) :
  CacheInv c ->
  GetLastCachedStat c =
  Samples c !! Z.to_nat ((CurrentSampleIndex c - 1 + SampleSize c) mod SampleSize c).
Proof.
  intros [Hsz Hnum Hidx]. unfold GetLastCachedStat.
  rewrite int32_small by (unfold in_int32, INT32_MIN; lia).
  destruct (Z.ltb_spec (CurrentSampleIndex c - 1) 0) as [Hneg|Hpos].
  - rewrite int32_small by (unfold in_int32, INT32_MIN; lia).
    rewrite TArray_get_valid by lia.
    replace (CurrentSampleIndex c - 1 + SampleSize c) with (SampleSize c - 1) by lia.
    by rewrite Hnum, Z.mod_small by lia.
  - rewrite TArray_get_valid by lia. f_equal. f_equal.
    apply Z.mod_unique with 1; lia.
Qed.

(** C1: a buffer of capacity [C > 0] that recorded [vs], with at least [C]
    samples in [vs], holds exactly the last [C] samples of [vs], and
    [ForEachCurrentSample] visits them oldest first; when [vs] has exactly
    [C] samples the traversal yields [vs] itself. *)
Theorem ForEachCurrentSample_last_samples (C : Z) (vs : list double) :
  0 < C <= INT32_MAX -> (Z.to_nat C <= length vs)%nat ->
  exists c,
    Recorded C vs = Some c
    /\ VisitedSamples c = Some (drop (length vs - Z.to_nat C) vs)
    /\ Samples c ≡ₚ drop (length vs - Z.to_nat C) vs
    /\ (length vs = Z.to_nat C -> VisitedSamples c = Some vs).
Proof.
  intros HC Hlen.
  destruct (Recorded_Some C vs HC) as (c & Hrec & Hinv & _ & Hwin).
  rewrite drop_zero_fill in Hwin by done.
  exists c. split; [done|].
  rewrite VisitedSamples_Window by done.
  split; [by rewrite Hwin|].
  split; [by rewrite <- Hwin, Window_Permutation|].
  intros Heq. rewrite Hwin, Heq, Nat.sub_diag. done.
Qed.

Lemma ForEachCurrentSample_last_samples_witness :
  exists c,
    Recorded 3 [1; 2; 3; 4; 5]%float = Some c
    /\ VisitedSamples c = Some [3; 4; 5]%float.
Proof.
  destruct (ForEachCurrentSample_last_samples 3 [1; 2; 3; 4; 5]%float)
    as (c & Hrec & Hvis & _); [unfold INT32_MAX; lia | simpl; lia |].
  exists c. split; [exact Hrec | exact Hvis].
Defined.

(** C2: [GetCurrentCachedStat] returns [Samples[CurrentSampleIndex]], the
    slot the next [RecordSample] overwrites; it is the first sample of the
    traversal, and once the buffer of capacity [C] has recorded at least [C]
    samples it is the oldest of the last [C]. With capacity 3, after
    1, 2, 3, 4, 5 it returns 3. *)
Theorem GetCurrentCachedStat_oldest :
  (forall c : FSampledStatCache, CacheInv c ->
     GetCurrentCachedStat c = Samples c !! Z.to_nat (CurrentSampleIndex c)
     /\ GetCurrentCachedStat c = head (Window c)
     /\ forall v, exists c', RecordSample c v = Some c'
          /\ Samples c' = <[Z.to_nat (CurrentSampleIndex c) := v]> (Samples c))
  /\ (forall (C : Z) (vs : list double),
        0 < C <= INT32_MAX -> (Z.to_nat C <= length vs)%nat ->
        exists c, Recorded C vs = Some c
          /\ GetCurrentCachedStat c = vs !! (length vs - Z.to_nat C)%nat)
  /\ (exists c, Recorded 3 [1; 2; 3; 4; 5]%float = Some c
        /\ GetCurrentCachedStat c = Some 3%float
        /\ GetLastCachedStat c = Some 5%float).
Proof.
  split; [|split].
  - intros c Hinv. split; [by apply GetCurrentCachedStat_lookup|].
    split; [by apply GetCurrentCachedStat_head|].
    intros v. eexists. split; [by apply RecordSample_eq | done].
  - intros C vs HC Hlen.
    destruct (Recorded_Some C vs HC) as (c & Hrec & Hinv & _ & Hwin).
    rewrite drop_zero_fill in Hwin by done.
    exists c. split; [done|].
    rewrite GetCurrentCachedStat_head, Hwin by done.
    by rewrite head_lookup, lookup_drop, Nat.add_0_r.
  - eexists. split; [vm_compute; reflexivity|]. split; vm_compute; reflexivity.
Qed.

Lemma GetCurrentCachedStat_oldest_witness :
  exists c, Recorded 2 [7; 8; 9]%float = Some c
    /\ GetCurrentCachedStat c = Some 8%float.
Proof.
  destruct (proj1 (proj2 GetCurrentCachedStat_oldest) 2 [7; 8; 9]%float)
    as (c & Hrec & Hcur); [unfold INT32_MAX; lia | simpl; lia |].
  exists c. split; [exact Hrec | exact Hcur].
Defined.

(** C3: [GetLastCachedStat] returns
    [Samples[(CurrentSampleIndex - 1 + SampleSize) mod SampleSize]], and
    right after [RecordSample x] that is [x]. *)
Theorem GetLastCachedStat_after_RecordSample (c : FSampledStatCache) (x : double) :
  CacheInv c ->
  GetLastCachedStat c =
    Samples c !! Z.to_nat ((CurrentSampleIndex c - 1 + SampleSize c) mod SampleSize c)
  /\ exists c', RecordSample c x = Some c' /\ GetLastCachedStat c' = Some x.
Proof.
  intros Hinv. split; [by apply GetLastCachedStat_lookup|].
  pose proof (RecordSample_eq c x Hinv) as H1.
  destruct (RecordSample_inv _ _ _ Hinv H1) as (Hinv1 & _ & _).
  eexists. split; [exact H1|].
  rewrite GetLastCachedStat_lookup by done. simpl.
  destruct Hinv as [Hsz Hnum Hidx]. unfold TArray.Num in Hnum.
  replace (((CurrentSampleIndex c + 1) mod SampleSize c - 1 + SampleSize c)
             mod SampleSize c) with (CurrentSampleIndex c).
  - apply list_lookup_insert_eq. lia.
  - destruct (Z.eq_dec (CurrentSampleIndex c + 1) (SampleSize c)) as [Heq|Hne].
    + rewrite Heq, Z_mod_same_full. simpl.
      rewrite Z.mod_small by lia. lia.
    + rewrite (Z.mod_small (CurrentSampleIndex c + 1)) by lia.
      apply Z.mod_unique with 1; lia.
Qed.

Lemma GetLastCachedStat_after_RecordSample_witness :
  exists c', RecordSample (MkSampledStatCache 2 1 [1; 2]%float) 9%float = Some c'
    /\ GetLastCachedStat c' = Some 9%float.
Proof.
  apply (GetLastCachedStat_after_RecordSample
           (MkSampledStatCache 2 1 [1; 2]%float) 9%float).
  split; simpl; unfold INT32_MAX; (reflexivity || lia).
Defined.

(** ** Call sequences *)

Lemma RunCache_state (ks : list CacheCall) (c : FSampledStatCache) :
  snd <$> RunCache ks c = RecordSamples c (RecordedBy ks).
Proof.
  revert c. induction ks as [|[v|q] ks IH]; intros c; simpl; [done| |].
  - destruct (RecordSample c v) as [c1|]; simpl; [|done].
    rewrite <- IH. by destruct (RunCache ks c1) as [[outs c2]|].
  - rewrite <- IH. by destruct (RunCache ks c) as [[outs c2]|].
Qed.

Lemma RunCache_queries (qs : list CacheQuery) (c : FSampledStatCache) :
  RunCache (CallQuery <$> qs) c = Some ((fun q => AskCache q c) <$> qs, c).
Proof.
  induction qs as [|q qs IH]; csimpl; [done|]. by rewrite IH.
Qed.

Lemma RunStat_queries (qs : list StatQuery) (r : FLyraPerformanceStatCache) :
  RunStat qs r = ((fun q => AskStat q r) <$> qs, r).
Proof.
  induction qs as [|q qs IH]; csimpl; [done|]. by rewrite IH.
Qed.

Lemma RunCache_inv (ks : list CacheCall) (c : FSampledStatCache) :
  CacheInv c ->
  exists outs c', RunCache ks c = Some (outs, c') /\ CacheInv c'
                  /\ SampleSize c' = SampleSize c
                  /\ length (Samples c') = length (Samples c).
Proof.
  intros Hinv.
  destruct (RecordSamples_inv (RecordedBy ks) c Hinv) as (c' & Hrun & Hrest).
  pose proof (RunCache_state ks c) as Hst. rewrite Hrun in Hst.
  destruct (RunCache ks c) as [[outs c'']|]; [|done].
  simpl in Hst. injection Hst as ->. by exists outs, c'.
Qed.

Lemma RunCache_from_ctor (C : Z) (ks : list CacheCall) :
  0 < C <= INT32_MAX ->
  exists outs c,
    (FSampledStatCache_ctor C ≫= RunCache ks) = Some (outs, c)
    /\ CacheInv c /\ SampleSize c = C /\ length (Samples c) = Z.to_nat C.
Proof.
  intros HC. rewrite FSampledStatCache_ctor_pos by lia. simpl.
  set (c0 := {| SampleSize := C |}).
  assert (CacheInv c0) as Hinv0.
  { apply (FSampledStatCache_ctor_inv C); [unfold in_int32, INT32_MIN; lia|].
    apply FSampledStatCache_ctor_pos; lia. }
  destruct (RunCache_inv ks c0 Hinv0) as (outs & c & Hrun & Hinv & Hs & Hl).
  exists outs, c. split; [done|]. split; [done|]. split; [done|].
  rewrite Hl. simpl. by rewrite length_replicate.
Qed.

Lemma GetMin_GetMax_is_Some (c : FSampledStatCache) :
  CacheInv c -> is_Some (GetMin c) /\ is_Some (GetMax c).
Proof.
  intros [Hsz Hnum Hidx]. unfold GetMin, GetMax, Algo.MinElement, Algo.MaxElement.
  assert (Samples c <> []) as Hne.
  { intros E. rewrite E in Hnum. unfold TArray.Num in Hnum. simpl in Hnum. lia. }
  split.
  - destruct (Algo.MinElementBy _ _) eqn:E; [done|].
    by apply MinElementBy_None in E.
  - destruct (Algo.MaxElementBy _ _) eqn:E; [done|].
    by apply MaxElementBy_None in E.
Qed.

(** C4: [GetAverage] is the sum of all [SampleSize] slots, added up from
    [0.0] in traversal order, divided by [SampleSize], whatever number of
    samples was recorded; [GetMin] and [GetMax] return a slot that no slot is
    below, respectively above, and that bounds every slot when none is NaN.
    With capacity 4, after 2, 4, 6, 8 the average is 5, the minimum 2 and the
    maximum 8; after only 2, 4 the average is 6 / 4. *)
Theorem GetAverage_GetMin_GetMax_all_slots :
  (forall c : FSampledStatCache, CacheInv c ->
     GetAverage c =
       Some (PrimFloat.div (foldl PrimFloat.add PrimFloat.zero (Window c))
                           (double_of_int32 (SampleSize c)))
     /\ Window c ≡ₚ Samples c
     /\ length (Samples c) = Z.to_nat (SampleSize c)
     /\ exists mn mx,
          GetMin c = Some mn /\ GetMax c = Some mx
          /\ mn ∈ Samples c /\ mx ∈ Samples c
          /\ (forall x, x ∈ Samples c ->
                PrimFloat.ltb x mn = false /\ PrimFloat.ltb mx x = false)
          /\ ((forall x, x ∈ Samples c -> PrimFloat.is_nan x = false) ->
              forall x, x ∈ Samples c ->
                PrimFloat.leb mn x = true /\ PrimFloat.leb x mx = true))
  /\ (exists c, Recorded 4 [2; 4; 6; 8]%float = Some c
        /\ GetAverage c = Some 5%float
        /\ GetMin c = Some 2%float /\ GetMax c = Some 8%float)
  /\ (exists c, Recorded 4 [2; 4]%float = Some c
        /\ GetAverage c = Some 1.5%float
        /\ GetMin c = Some 0%float /\ GetMax c = Some 4%float).
Proof.
  split; [|split].
  - intros c Hinv. split; [|split; [|split]].
    + unfold GetAverage. by rewrite ForEachCurrentSample_Window.
    + apply Window_Permutation.
    + destruct Hinv as [_ Hnum _]. unfold TArray.Num in Hnum. lia.
    + destruct (GetMin_GetMax_is_Some c Hinv) as [[mn Hmn] [mx Hmx]].
      exists mn, mx.
      destruct (MinElementBy_least _ ltb_irrefl ltb_trans _ _ Hmn) as [Hin1 Hle1].
      destruct (MaxElementBy_greatest _ ltb_irrefl ltb_trans _ _ Hmx) as [Hin2 Hle2].
      repeat (split; [done|]). split; [by auto|].
      intros Hnan x Hx. split; apply leb_of_not_ltb; auto.
  - eexists. split; [vm_compute; reflexivity|]. repeat split; vm_compute; reflexivity.
  - eexists. split; [vm_compute; reflexivity|]. repeat split; vm_compute; reflexivity.
Qed.

Lemma GetAverage_GetMin_GetMax_all_slots_witness :
  GetAverage (MkSampledStatCache 2 1 [1; 3]%float) = Some 2%float.
Proof.
  destruct (proj1 GetAverage_GetMin_GetMax_all_slots
              (MkSampledStatCache 2 1 [1; 3]%float)) as [Havg _].
  - split; simpl; unfold INT32_MAX; (reflexivity || lia).
  - rewrite Havg. vm_compute. reflexivity.
Defined.

(** C5: the constructor fails fatally exactly when the capacity is not
    positive (no clamping), and for a positive capacity it yields [C] slots of
    [0.0] with the write position at 0. *)
Theorem FSampledStatCache_ctor_fatal_iff (C : Z) :
  (FSampledStatCache_ctor C = None <-> C <= 0)
  /\ (0 < C ->
      FSampledStatCache_ctor C =
      Some {| SampleSize := C; CurrentSampleIndex := 0;
              Samples := replicate (Z.to_nat C) PrimFloat.zero |}).
Proof.
  split.
  - unfold FSampledStatCache_ctor. destruct (Z.ltb_spec 0 C); split; try done; lia.
  - apply FSampledStatCache_ctor_pos.
Qed.

Lemma FSampledStatCache_ctor_fatal_iff_witness :
  FSampledStatCache_ctor 3 = Some (MkSampledStatCache 3 0 [0; 0; 0]%float)
  /\ FSampledStatCache_ctor 0 = None
  /\ FSampledStatCache_ctor (-1) = None.
Proof.
  split; [|split].
  - apply (proj2 (FSampledStatCache_ctor_fatal_iff 3)). lia.
  - apply (proj1 (FSampledStatCache_ctor_fatal_iff 0)). lia.
  - apply (proj1 (FSampledStatCache_ctor_fatal_iff (-1))). lia.
Defined.

(** C6: for a key the registry does not track, [GetCachedStat] returns 0.0
    without failing, [GetCachedStatData] returns the null pointer, and no
    sequence of queries makes the key tracked. *)
Theorem GetCachedStat_untracked (r : FLyraPerformanceStatCache)
    (Stat : ELyraDisplayablePerformanceStat) :
  PerfStateCache r !! Stat = None ->
  GetCachedStat r Stat = Some PrimFloat.zero
  /\ GetCachedStatData r Stat = None
  /\ StepStat (QGetCachedStat Stat) r = (ADouble (Some PrimFloat.zero), r)
  /\ forall qs, PerfStateCache (RunStat qs r).2 !! Stat = None.
Proof.
  intros Hnone.
  assert (GetCachedStat r Stat = Some PrimFloat.zero) as H0.
  { unfold GetCachedStat, GetCachedStatData. by rewrite Hnone. }
  split; [done|]. split; [done|]. split.
  - unfold StepStat. simpl. by rewrite H0.
  - intros qs. by rewrite RunStat_queries.
Qed.

Lemma GetCachedStat_untracked_witness :
  GetCachedStat
    (MkPerformanceStatCache {[ 1%N := MkSampledStatCache 2 1 [1; 3]%float ]}) 0%N
  = Some 0%float.
Proof.
  apply (GetCachedStat_untracked
           (MkPerformanceStatCache {[ 1%N := MkSampledStatCache 2 1 [1; 3]%float ]})
           0%N).
  reflexivity.
Defined.

(** C7: after construction with a positive capacity [C] and any sequence of
    calls, recording or querying, no call fails, [Samples] still has [C]
    elements, [SampleSize] is still [C], and [CurrentSampleIndex] is in
    [0, C). *)
Theorem CacheInv_preserved (C : Z) (ks : list CacheCall) :
  0 < C <= INT32_MAX ->
  exists outs c,
    (FSampledStatCache_ctor C ≫= RunCache ks) = Some (outs, c)
    /\ SampleSize c = C
    /\ TArray.Num (Samples c) = C
    /\ 0 <= CurrentSampleIndex c < C.
Proof.
  intros HC.
  destruct (RunCache_from_ctor C ks HC) as (outs & c & Hrun & Hinv & Hs & Hl).
  exists outs, c. destruct Hinv as [Hsz Hnum Hidx].
  split; [done|]. split; [done|]. split; lia.
Qed.

Lemma CacheInv_preserved_witness :
  exists outs c,
    (FSampledStatCache_ctor 2
       ≫= RunCache [CallRecordSample 1%float; CallQuery QGetAverage;
                    CallRecordSample 2%float; CallRecordSample 3%float])
    = Some (outs, c)
    /\ SampleSize c = 2
    /\ TArray.Num (Samples c) = 2
    /\ 0 <= CurrentSampleIndex c < 2.
Proof.
  apply (CacheInv_preserved 2). unfold INT32_MAX. lia.
Defined.

(** ** The member functions as transformers agree with the functions above *)

Lemma RecordSample_m_eq (Sample : double) (c : FSampledStatCache) :
  RecordSample_m Sample c =
  match RecordSample c Sample with Some c' => Some (tt, c') | None => None end.
Proof.
  unfold RecordSample_m, RecordSample, mbind, mret, Method_bind, Method_ret,
    load_CurrentSampleIndex, store_CurrentSampleIndex, Samples_write, Samples_Num.
  destruct (TArray.set (Samples c) (CurrentSampleIndex c) Sample) as [s|]; simpl; [|done].
  by destruct (TArray.Num s <=? int32 (CurrentSampleIndex c + 1)).
Qed.

Lemma GetCurrentCachedStat_m_eq (c : FSampledStatCache) :
  GetCurrentCachedStat_m c =
  match GetCurrentCachedStat c with Some x => Some (x, c) | None => None end.
Proof. reflexivity. Qed.

Lemma GetLastCachedStat_m_eq (c : FSampledStatCache) :
  GetLastCachedStat_m c =
  match GetLastCachedStat c with Some x => Some (x, c) | None => None end.
Proof.
  unfold GetLastCachedStat_m, GetLastCachedStat, mbind, mret, Method_bind,
    Method_ret, load_CurrentSampleIndex, Samples_Num, Samples_read. simpl.
  by destruct (int32 (CurrentSampleIndex c - 1) <? 0).
Qed.

Lemma ForEachCurrentSample_loop_m_eq {St : Type} (Func : St -> double -> St)
    (c : FSampledStatCache) (n : nat) (Index : Z) (st : St) :
  ForEachCurrentSample_loop_m Func n Index st c =
  match ForEachCurrentSample_loop Func c n Index st with
  | Some st' => Some (st', c)
  | None => None
  end.
Proof.
  revert Index st. induction n as [|n IH]; intros Index st; simpl; [done|].
  unfold mbind, Method_bind, Samples_read, load_SampleSize.
  destruct (TArray.get (Samples c) Index) as [x|]; simpl; [|done].
  apply IH.
Qed.

Lemma ForEachCurrentSample_m_eq {St : Type} (Func : St -> double -> St)
    (c : FSampledStatCache) (st : St) :
  ForEachCurrentSample_m Func st c =
  match ForEachCurrentSample Func c st with
  | Some st' => Some (st', c)
  | None => None
  end.
Proof.
  unfold ForEachCurrentSample_m, ForEachCurrentSample, mbind, Method_bind,
    load_CurrentSampleIndex, load_SampleSize.
  apply ForEachCurrentSample_loop_m_eq.
Qed.

Lemma GetAverage_m_eq (c : FSampledStatCache) :
  GetAverage_m c =
  match GetAverage c with Some x => Some (x, c) | None => None end.
Proof.
  unfold GetAverage_m, GetAverage, mbind at 1, Method_bind.
  rewrite ForEachCurrentSample_m_eq.
  by destruct (ForEachCurrentSample _ c _).
Qed.

Lemma GetMin_m_eq (c : FSampledStatCache) :
  GetMin_m c = match GetMin c with Some x => Some (x, c) | None => None end.
Proof. reflexivity. Qed.

Lemma GetMax_m_eq (c : FSampledStatCache) :
  GetMax_m c = match GetMax c with Some x => Some (x, c) | None => None end.
Proof. reflexivity. Qed.

(** ** Queries give their object back *)

Lemma CallQuery_m_unchanged (q : CacheQuery) (c c' : FSampledStatCache) (a : Value) :
  CallQuery_m q c = Some (a, c') -> c' = c.
Proof.
  destruct q; unfold CallQuery_m, mbind, Method_bind.
  - rewrite GetCurrentCachedStat_m_eq.
    destruct (GetCurrentCachedStat c); [|done]. by intros [= _ <-].
  - rewrite GetLastCachedStat_m_eq.
    destruct (GetLastCachedStat c); [|done]. by intros [= _ <-].
  - rewrite GetAverage_m_eq.
    destruct (GetAverage c); [|done]. by intros [= _ <-].
  - rewrite GetMin_m_eq.
    destruct (GetMin c); [|done]. by intros [= _ <-].
  - rewrite GetMax_m_eq.
    destruct (GetMax c); [|done]. by intros [= _ <-].
  - by intros [= _ <-].
  - rewrite ForEachCurrentSample_m_eq.
    destruct (ForEachCurrentSample _ c _); [|done]. by intros [= _ <-].
Qed.

Lemma CallQuery_m_defined (q : CacheQuery) (c : FSampledStatCache) :
  CacheInv c -> exists a, CallQuery_m q c = Some (a, c).
Proof.
  intros Hinv. pose proof Hinv as [Hsz Hnum Hidx].
  destruct q; unfold CallQuery_m, mbind, Method_bind.
  - rewrite GetCurrentCachedStat_m_eq.
    destruct (TArray_get_is_Some (Samples c) (CurrentSampleIndex c)) as [x Hx]; [lia|].
    unfold GetCurrentCachedStat. rewrite Hx. by eexists.
  - rewrite GetLastCachedStat_m_eq, GetLastCachedStat_lookup by done.
    destruct (lookup_lt_is_Some_2 (Samples c)
                (Z.to_nat ((CurrentSampleIndex c - 1 + SampleSize c) mod SampleSize c)))
      as [x Hx].
    { pose proof (Z.mod_pos_bound (CurrentSampleIndex c - 1 + SampleSize c)
                    (SampleSize c)). unfold TArray.Num in Hnum. lia. }
    rewrite Hx. by eexists.
  - rewrite GetAverage_m_eq. unfold GetAverage.
    rewrite ForEachCurrentSample_Window by done. by eexists.
  - rewrite GetMin_m_eq.
    destruct (GetMin_GetMax_is_Some c Hinv) as [[x Hx] _]. rewrite Hx. by eexists.
  - rewrite GetMax_m_eq.
    destruct (GetMin_GetMax_is_Some c Hinv) as [_ [x Hx]]. rewrite Hx. by eexists.
  - by eexists.
  - rewrite ForEachCurrentSample_m_eq, ForEachCurrentSample_Window by done.
    by eexists.
Qed.

Lemma through_pointer_unchanged {A : Type} (Stat : ELyraDisplayablePerformanceStat)
    (m : Method FSampledStatCache A) (r r' : FLyraPerformanceStatCache) (a : A) :
  (forall c c' x, m c = Some (x, c') -> c' = c) ->
  through_pointer Stat m r = Some (a, r') -> r' = r.
Proof.
  intros Hm. unfold through_pointer.
  destruct (PerfStateCache r !! Stat) as [c|] eqn:Hc; [|done].
  destruct (m c) as [[x c']|] eqn:Hmc; [|done].
  apply Hm in Hmc as ->. intros [= _ <-].
  rewrite insert_id by done. by destruct r.
Qed.

Lemma through_pointer_defined {A : Type} (Stat : ELyraDisplayablePerformanceStat)
    (m : Method FSampledStatCache A) (r : FLyraPerformanceStatCache)
    (c : FSampledStatCache) (a : A) :
  PerfStateCache r !! Stat = Some c -> m c = Some (a, c) ->
  through_pointer Stat m r = Some (a, r).
Proof.
  intros Hc Hm. unfold through_pointer. rewrite Hc, Hm.
  rewrite insert_id by done. by destruct r.
Qed.

Lemma CallStatQuery_m_unchanged (q : StatQuery)
    (r r' : FLyraPerformanceStatCache) (a : Value) :
  CallStatQuery_m q r = Some (a, r') -> r' = r.
Proof.
  destruct q as [Stat|Stat|Stat q'];
    unfold CallStatQuery_m, GetCachedStat_m, GetCachedStatData_m,
      PerfStateCache_Find, mbind, mret, Method_bind, Method_ret.
  - destruct (PerfStateCache r !! Stat) as [c|]; [|by intros [= _ <-]].
    destruct (through_pointer Stat GetCurrentCachedStat_m r) as [[x r1]|] eqn:H; [|done].
    intros [= _ <-]. apply through_pointer_unchanged in H; [done|].
    intros c0 c0' x0. rewrite GetCurrentCachedStat_m_eq.
    destruct (GetCurrentCachedStat c0); [|done]. by intros [= _ <-].
  - by intros [= _ <-].
  - destruct (PerfStateCache r !! Stat) as [c|]; [|by intros [= _ <-]].
    intros H. apply through_pointer_unchanged in H; [done|].
    intros c0 c0' x0. apply CallQuery_m_unchanged.
Qed.

Lemma CallStatQuery_m_defined (q : StatQuery) (r : FLyraPerformanceStatCache) :
  (forall Stat Cache, PerfStateCache r !! Stat = Some Cache -> CacheInv Cache) ->
  exists a, CallStatQuery_m q r = Some (a, r).
Proof.
  intros Hinv.
  destruct q as [Stat|Stat|Stat q'];
    unfold CallStatQuery_m, GetCachedStat_m, GetCachedStatData_m,
      PerfStateCache_Find, mbind, mret, Method_bind, Method_ret.
  - destruct (PerfStateCache r !! Stat) as [c|] eqn:Hc; [|by eexists].
    destruct (CallQuery_m_defined QGetCurrentCachedStat c (Hinv _ _ Hc)) as [a Ha].
    unfold CallQuery_m, mbind, mret, Method_bind, Method_ret in Ha.
    destruct (GetCurrentCachedStat_m c) as [[x c1]|] eqn:Hx; [|done].
    injection Ha as _ ->.
    rewrite (through_pointer_defined Stat _ r c x Hc Hx). by eexists.
  - by eexists.
  - destruct (PerfStateCache r !! Stat) as [c|] eqn:Hc; [|by eexists].
    destruct (CallQuery_m_defined q' c (Hinv _ _ Hc)) as [a Ha].
    exists a. by apply (through_pointer_defined Stat _ r c a).
Qed.

Section CallAll.
Context {Obj Q A : Type} (call : Q -> Method Obj A).

Lemma CallAll_m_unchanged (qs : list Q) (o o' : Obj) (out : list A) :
  (forall q o o' a, call q o = Some (a, o') -> o' = o) ->
  CallAll_m call qs o = Some (out, o') -> o' = o.
Proof.
  intros Hcall. revert o o' out.
  induction qs as [|q qs IH]; intros o o' out; simpl.
  - by intros [= _ <-].
  - unfold mbind, mret, Method_bind, Method_ret.
    destruct (call q o) as [[a o1]|] eqn:Hq; [|done].
    apply Hcall in Hq as ->.
    destruct (CallAll_m call qs o) as [[rest o2]|] eqn:Hrest; [|done].
    apply IH in Hrest as ->. by intros [= _ <-].
Qed.

Lemma CallAll_m_defined (P : Obj -> Prop) (qs : list Q) (o : Obj) :
  (forall q o, P o -> exists a, call q o = Some (a, o)) ->
  P o ->
  exists out, CallAll_m call qs o = Some (out, o)
    /\ Forall2 (fun q a => call q o = Some (a, o)) qs out.
Proof.
  intros Hcall HP. induction qs as [|q qs IH]; simpl.
  - exists []. split; [done | constructor].
  - destruct (Hcall q o HP) as [a Ha].
    destruct IH as (rest & Hrest & Hall).
    exists (a :: rest). unfold mbind, mret, Method_bind, Method_ret.
    rewrite Ha, Hrest. split; [done | by constructor].
Qed.

End CallAll.

(** C8: queries are read-only and repeatable. Each query member function,
    run as the transformer read off its body, hands back the object it was
    called on, so any sequence of queries on a buffer, or on the registry,
    ends in the state it started from; on a buffer that satisfies the
    invariant, and on a registry whose buffers do, no query of the sequence
    fails and each one returns what a single call of it on the starting
    state returns. *)
Theorem queries_read_only :
  (forall (qs : list CacheQuery) (c c' : FSampledStatCache) (out : list Value),
     CallAll_m CallQuery_m qs c = Some (out, c') -> c' = c)
  /\ (forall (qs : list StatQuery) (r r' : FLyraPerformanceStatCache)
             (out : list Value),
        CallAll_m CallStatQuery_m qs r = Some (out, r') -> r' = r)
  /\ (forall (qs : list CacheQuery) (c : FSampledStatCache),
        CacheInv c ->
        exists out,
          CallAll_m CallQuery_m qs c = Some (out, c)
          /\ Forall2 (fun q a => CallQuery_m q c = Some (a, c)) qs out)
  /\ (forall (qs : list StatQuery) (r : FLyraPerformanceStatCache),
        (forall Stat Cache,
           PerfStateCache r !! Stat = Some Cache -> CacheInv Cache) ->
        exists out,
          CallAll_m CallStatQuery_m qs r = Some (out, r)
          /\ Forall2 (fun q a => CallStatQuery_m q r = Some (a, r)) qs out).
Proof.
  split; [|split; [|split]].
  - intros qs c c' out. apply CallAll_m_unchanged.
    intros q o o' a. apply CallQuery_m_unchanged.
  - intros qs r r' out. apply CallAll_m_unchanged.
    intros q o o' a. apply CallStatQuery_m_unchanged.
  - intros qs c Hinv.
    apply (CallAll_m_defined CallQuery_m CacheInv); [|done].
    intros q o. apply CallQuery_m_defined.
  - intros qs r Hinv.
    apply (CallAll_m_defined CallStatQuery_m
             (fun r => forall Stat Cache,
                PerfStateCache r !! Stat = Some Cache -> CacheInv Cache)); [|done].
    intros q o. apply CallStatQuery_m_defined.
Qed.

Lemma queries_read_only_witness :
  exists out,
    CallAll_m CallQuery_m [QGetAverage; QGetLastCachedStat; QGetAverage]
      (MkSampledStatCache 3 2 [4; 5; 3]%float)
    = Some (out, MkSampledStatCache 3 2 [4; 5; 3]%float)
    /\ Forall2 (fun q a =>
                  CallQuery_m q (MkSampledStatCache 3 2 [4; 5; 3]%float)
                  = Some (a, MkSampledStatCache 3 2 [4; 5; 3]%float))
         [QGetAverage; QGetLastCachedStat; QGetAverage] out.
Proof.
  apply (proj1 (proj2 (proj2 queries_read_only))).
  split; simpl; unfold INT32_MAX; (reflexivity || lia).
Defined.

(** C9: [ForEachCurrentSample] calls the visitor [SampleSize] times, the
    [j]-th call on [Samples[(CurrentSampleIndex + j) mod SampleSize]]; every
    call of it, whatever the visitor, goes over the same sequence, and the
    buffer is as before. *)
Theorem ForEachCurrentSample_order (c : FSampledStatCache) :
  CacheInv c ->
  length (Window c) = Z.to_nat (SampleSize c)
  /\ (forall j, 0 <= j < SampleSize c ->
        Window c !! Z.to_nat j =
        Samples c !! Z.to_nat ((CurrentSampleIndex c + j) mod SampleSize c))
  /\ (forall (St : Type) (Func : St -> double -> St) (st : St),
        ForEachCurrentSample Func c st = Some (foldl Func st (Window c)))
  /\ VisitedSamples c = Some (Window c)
  /\ RunCache [CallQuery QForEachCurrentSample; CallQuery QForEachCurrentSample] c
     = Some ([ASamples (Some (Window c)); ASamples (Some (Window c))], c).
Proof.
  intros Hinv. split; [by apply Window_length|]. split; [|split; [|split]].
  - intros j Hj. rewrite Window_lookup by (done || lia).
    by rewrite Z2Nat.id by lia.
  - intros St Func st. by apply ForEachCurrentSample_Window.
  - by apply VisitedSamples_Window.
  - simpl. by rewrite VisitedSamples_Window.
Qed.

Lemma ForEachCurrentSample_order_witness :
  VisitedSamples (MkSampledStatCache 3 2 [4; 5; 3]%float) = Some [3; 4; 5]%float.
Proof.
  destruct (ForEachCurrentSample_order (MkSampledStatCache 3 2 [4; 5; 3]%float))
    as (_ & _ & _ & Hvis & _).
  - split; simpl; unfold INT32_MAX; (reflexivity || lia).
  - exact Hvis.
Defined.

(** C10: after construction with a positive capacity and any sequence of
    calls, [Samples] is not empty, so [Algo::MinElement] and
    [Algo::MaxElement] return a non-null pointer and [GetMin] and [GetMax]
    are defined. *)
Theorem GetMin_GetMax_defined (C : Z) (ks : list CacheCall) :
  0 < C <= INT32_MAX ->
  exists outs c,
    (FSampledStatCache_ctor C ≫= RunCache ks) = Some (outs, c)
    /\ Samples c <> []
    /\ is_Some (GetMin c) /\ is_Some (GetMax c).
Proof.
  intros HC.
  destruct (RunCache_from_ctor C ks HC) as (outs & c & Hrun & Hinv & Hs & Hl).
  exists outs, c. split; [done|]. split.
  - intros E. rewrite E in Hl. simpl in Hl. lia.
  - by apply GetMin_GetMax_is_Some.
Qed.

Lemma GetMin_GetMax_defined_witness :
  exists outs c,
    (FSampledStatCache_ctor 2
       ≫= RunCache [CallRecordSample 1%float; CallQuery QGetMin;
                    CallRecordSample 2%float; CallRecordSample 3%float])
    = Some (outs, c)
    /\ Samples c <> []
    /\ is_Some (GetMin c) /\ is_Some (GetMax c).
Proof.
  apply (GetMin_GetMax_defined 2). unfold INT32_MAX. lia.
Defined.

(** * Further properties of the buffer *)

(** ** NaN *)

Lemma is_nan_Prim2SF (x : double) :
  PrimFloat.is_nan x = true <-> Prim2SF x = S754_nan.
Proof.
  unfold PrimFloat.is_nan. rewrite FloatAxioms.eqb_spec. split.
  - destruct (Prim2SF x) as [s|s| |s m e] eqn:E; try done; intros H; exfalso.
    + destruct s; cbv in H; done.
    + unfold SFeqb, SFcompare in H.
      rewrite Z.compare_refl in H.
      change (Pos.compare_cont Eq m m) with (Pos.compare m m) in H.
      rewrite Pos.compare_refl in H. by destruct s.
  - by intros ->.
Qed.

Lemma ltb_nan_l (x y : double) :
  PrimFloat.is_nan x = true -> PrimFloat.ltb x y = false.
Proof. rewrite is_nan_Prim2SF, ltb_spec. by intros ->. Qed.

Lemma ltb_nan_r (x y : double) :
  PrimFloat.is_nan y = true -> PrimFloat.ltb x y = false.
Proof.
  rewrite is_nan_Prim2SF, ltb_spec. intros ->.
  unfold SFltb, SFcompare. by destruct (Prim2SF x).
Qed.

Lemma add_nan_l (x y : double) :
  PrimFloat.is_nan x = true -> PrimFloat.is_nan (PrimFloat.add x y) = true.
Proof.
  rewrite !is_nan_Prim2SF, add_spec. by intros ->.
Qed.

Lemma add_nan_r (x y : double) :
  PrimFloat.is_nan y = true -> PrimFloat.is_nan (PrimFloat.add x y) = true.
Proof.
  rewrite !is_nan_Prim2SF, add_spec. intros ->.
  unfold SF64add, SFadd. by destruct (Prim2SF x).
Qed.

Lemma div_nan_l (x y : double) :
  PrimFloat.is_nan x = true -> PrimFloat.is_nan (PrimFloat.div x y) = true.
Proof.
  rewrite !is_nan_Prim2SF, div_spec. by intros ->.
Qed.

Lemma foldl_add_nan_acc (l : list double) (a : double) :
  PrimFloat.is_nan a = true ->
  PrimFloat.is_nan (foldl PrimFloat.add a l) = true.
Proof.
  revert a. induction l as [|y l IH]; intros a Ha; simpl; [done|].
  apply IH. by apply add_nan_l.
Qed.

Lemma foldl_add_nan_elem (l : list double) (a x : double) :
  x ∈ l -> PrimFloat.is_nan x = true ->
  PrimFloat.is_nan (foldl PrimFloat.add a l) = true.
Proof.
  revert a. induction l as [|y l IH]; intros a Hin Hx; simpl.
  - by apply elem_of_nil in Hin.
  - apply elem_of_cons in Hin as [<-|Hin].
    + apply foldl_add_nan_acc. by apply add_nan_r.
    + by apply IH.
Qed.

Lemma MinElement_nan_head (x0 : double) (l : list double) (m : double) :
  Algo.MinElement (x0 :: l) = Some m ->
  PrimFloat.is_nan m = PrimFloat.is_nan x0
  /\ (PrimFloat.is_nan x0 = true -> m = x0).
Proof.
  unfold Algo.MinElement. revert m.
  induction l as [|x l IH] using rev_ind; intros m.
  - by intros [= <-].
  - rewrite app_comm_cons, MinElementBy_snoc.
    destruct (Algo.MinElementBy PrimFloat.ltb (x0 :: l)) as [r|] eqn:Hr.
    + destruct (IH r eq_refl) as [Hnan Heq].
      destruct (PrimFloat.ltb x r) eqn:Hlt; intros [= <-]; [|done].
      destruct (PrimFloat.is_nan x) eqn:Hx.
      { by rewrite ltb_nan_l in Hlt. }
      destruct (PrimFloat.is_nan r) eqn:Hrn.
      { by rewrite ltb_nan_r in Hlt. }
      split; [done|]. intros Hx0. congruence.
    + by apply MinElementBy_None in Hr.
Qed.

Lemma MaxElement_nan_head (x0 : double) (l : list double) (m : double) :
  Algo.MaxElement (x0 :: l) = Some m ->
  PrimFloat.is_nan m = PrimFloat.is_nan x0
  /\ (PrimFloat.is_nan x0 = true -> m = x0).
Proof.
  unfold Algo.MaxElement. revert m.
  induction l as [|x l IH] using rev_ind; intros m.
  - by intros [= <-].
  - rewrite app_comm_cons, MaxElementBy_snoc.
    destruct (Algo.MaxElementBy PrimFloat.ltb (x0 :: l)) as [r|] eqn:Hr.
    + destruct (IH r eq_refl) as [Hnan Heq].
      destruct (PrimFloat.ltb r x) eqn:Hlt; intros [= <-]; [|done].
      destruct (PrimFloat.is_nan x) eqn:Hx.
      { by rewrite ltb_nan_r in Hlt. }
      destruct (PrimFloat.is_nan r) eqn:Hrn.
      { by rewrite ltb_nan_l in Hlt. }
      split; [done|]. intros Hx0. congruence.
    + by apply MaxElementBy_None in Hr.
Qed.

(** ** Bounds from [GetMin] and [GetMax] *)

Lemma GetMin_GetMax_bounds (c : FSampledStatCache) :
  CacheInv c ->
  (forall x, x ∈ Samples c -> PrimFloat.is_nan x = false) ->
  exists mn mx,
    GetMin c = Some mn /\ GetMax c = Some mx
    /\ mn ∈ Samples c /\ mx ∈ Samples c
    /\ forall x, x ∈ Samples c ->
         PrimFloat.leb mn x = true /\ PrimFloat.leb x mx = true.
Proof.
  intros Hinv Hnan.
  destruct (GetMin_GetMax_is_Some c Hinv) as [[mn Hmn] [mx Hmx]].
  exists mn, mx.
  destruct (MinElementBy_least _ ltb_irrefl ltb_trans _ _ Hmn) as [Hin1 Hle1].
  destruct (MaxElementBy_greatest _ ltb_irrefl ltb_trans _ _ Hmx) as [Hin2 Hle2].
  repeat (split; [done|]).
  intros x Hx. split; apply leb_of_not_ltb; auto.
Qed.

(** ** The write position and the window after a run of records *)

Lemma RecordSamples_index (vs : list double) (c c' : FSampledStatCache) :
  CacheInv c -> RecordSamples c vs = Some c' ->
  CurrentSampleIndex c' =
  (CurrentSampleIndex c + Z.of_nat (length vs)) mod SampleSize c.
Proof.
  revert c. induction vs as [|v vs IH]; intros c Hinv; simpl.
  - intros [= <-]. destruct Hinv as [Hsz Hnum Hidx].
    by rewrite Z.add_0_r, Z.mod_small by lia.
  - pose proof (RecordSample_eq c v Hinv) as H1. rewrite H1. simpl. intros Hrun.
    destruct (RecordSample_inv _ _ _ Hinv H1) as (Hinv1 & _ & _).
    rewrite (IH _ Hinv1 Hrun). simpl.
    rewrite Zplus_mod_idemp_l. f_equal. lia.
Qed.

Lemma Recorded_index (C : Z) (vs : list double) (c : FSampledStatCache) :
  0 < C <= INT32_MAX -> Recorded C vs = Some c ->
  CurrentSampleIndex c = Z.of_nat (length vs) mod C.
Proof.
  intros HC. unfold Recorded.
  rewrite FSampledStatCache_ctor_pos by lia. simpl.
  set (c0 := {| SampleSize := C |}). intros Hrun.
  assert (CacheInv c0) as Hinv0.
  { apply (FSampledStatCache_ctor_inv C); [unfold in_int32, INT32_MIN; lia|].
    apply FSampledStatCache_ctor_pos; lia. }
  by rewrite (RecordSamples_index vs c0 c Hinv0 Hrun).
Qed.

Lemma Recorded_partial (C : Z) (vs : list double) :
  0 < C <= INT32_MAX -> (length vs <= Z.to_nat C)%nat ->
  exists c, Recorded C vs = Some c /\ CacheInv c /\ SampleSize c = C
    /\ Window c = replicate (Z.to_nat C - length vs) PrimFloat.zero ++ vs.
Proof.
  intros HC Hlen.
  destruct (Recorded_Some C vs HC) as (c & Hrec & Hinv & Hs & Hwin).
  exists c. repeat (split; [done|]).
  rewrite Hwin, drop_app_le by (rewrite length_replicate; lia).
  by rewrite drop_replicate.
Qed.

(** X1: until the buffer of capacity [C] is full, the traversal yields the
    zero fill that is left, [C - length vs] times 0.0, followed by the
    recorded samples in recording order. *)
Theorem VisitedSamples_partial_fill (C : Z) (vs : list double) :
  0 < C <= INT32_MAX -> (length vs <= Z.to_nat C)%nat ->
  exists c,
    Recorded C vs = Some c
    /\ VisitedSamples c =
       Some (replicate (Z.to_nat C - length vs) PrimFloat.zero ++ vs).
Proof.
  intros HC Hlen.
  destruct (Recorded_partial C vs HC Hlen) as (c & Hrec & Hinv & _ & Hwin).
  exists c. split; [done|]. by rewrite VisitedSamples_Window, Hwin.
Qed.

Lemma VisitedSamples_partial_fill_witness :
  exists c,
    Recorded 4 [7; 8]%float = Some c
    /\ VisitedSamples c = Some [0; 0; 7; 8]%float.
Proof.
  apply (VisitedSamples_partial_fill 4 [7; 8]%float);
    [unfold INT32_MAX; lia | simpl; lia].
Defined.

(** X2: on a buffer that satisfies the invariant, recording [vs] never fails
    and moves the write position by [length vs] modulo [SampleSize]; a number
    of records that is a multiple of [SampleSize] brings it back. *)
Theorem RecordSamples_CurrentSampleIndex (c : FSampledStatCache) (vs : list double) :
  CacheInv c ->
  exists c',
    RecordSamples c vs = Some c'
    /\ CurrentSampleIndex c' =
       (CurrentSampleIndex c + Z.of_nat (length vs)) mod SampleSize c
    /\ (Z.of_nat (length vs) mod SampleSize c = 0 ->
        CurrentSampleIndex c' = CurrentSampleIndex c).
Proof.
  intros Hinv.
  destruct (RecordSamples_inv vs c Hinv) as (c' & Hrun & _).
  pose proof (RecordSamples_index vs c c' Hinv Hrun) as Hidx'.
  exists c'. split; [done|]. split; [done|].
  intros Hmod. rewrite Hidx'. destruct Hinv as [Hsz Hnum Hidx].
  rewrite <- Zplus_mod_idemp_r, Hmod, Z.add_0_r. apply Z.mod_small. lia.
Qed.

Lemma RecordSamples_CurrentSampleIndex_witness :
  exists c',
    RecordSamples (MkSampledStatCache 3 2 [4; 5; 3]%float) [6; 7]%float = Some c'
    /\ CurrentSampleIndex c' = 1.
Proof.
  destruct (RecordSamples_CurrentSampleIndex
              (MkSampledStatCache 3 2 [4; 5; 3]%float) [6; 7]%float)
    as (c' & Hrun & Hidx & _).
  - split; simpl; unfold INT32_MAX; (reflexivity || lia).
  - exists c'. split; [exact Hrun | exact Hidx].
Defined.

(** X3: the window slides. On a buffer that satisfies the invariant and whose
    traversal yields [w], recording [vs] leads to a buffer whose traversal
    yields [w] followed by [vs] without its first [length vs] samples; after
    [SampleSize] or more records nothing of [w] is left, whatever the buffer
    held. *)
Theorem VisitedSamples_sliding (c : FSampledStatCache) (vs : list double) :
  CacheInv c ->
  exists w c',
    VisitedSamples c = Some w
    /\ RecordSamples c vs = Some c'
    /\ VisitedSamples c' = Some (drop (length vs) (w ++ vs))
    /\ ((Z.to_nat (SampleSize c) <= length vs)%nat ->
        VisitedSamples c' =
        Some (drop (length vs - Z.to_nat (SampleSize c)) vs)).
Proof.
  intros Hinv.
  destruct (RecordSamples_inv vs c Hinv) as (c' & Hrun & Hinv' & _).
  exists (Window c), c'.
  split; [by apply VisitedSamples_Window|]. split; [done|].
  rewrite VisitedSamples_Window by done.
  rewrite (Window_RecordSamples vs c c' Hinv Hrun).
  split; [done|]. intros Hlen. f_equal.
  pose proof (Window_length c Hinv) as Hwl.
  rewrite drop_app, drop_ge, Hwl by lia. done.
Qed.

Lemma VisitedSamples_sliding_witness :
  exists w c',
    VisitedSamples (MkSampledStatCache 3 2 [4; 5; 3]%float) = Some w
    /\ RecordSamples (MkSampledStatCache 3 2 [4; 5; 3]%float) [6; 7]%float = Some c'
    /\ VisitedSamples c' = Some (drop 2 (w ++ [6; 7]%float)).
Proof.
  destruct (VisitedSamples_sliding
              (MkSampledStatCache 3 2 [4; 5; 3]%float) [6; 7]%float)
    as (w & c' & Hw & Hrun & Hvis & _).
  - split; simpl; unfold INT32_MAX; (reflexivity || lia).
  - exists w, c'. split; [exact Hw|]. split; [exact Hrun | exact Hvis].
Defined.

(** X4: where the samples are stored. In a buffer of capacity [C] that
    recorded [vs], the sample number [k] (from 0) is in slot [k mod C] as
    long as fewer than [C] samples were recorded after it, and the slots that
    no sample has reached yet still hold 0.0. *)
Theorem Samples_layout (C : Z) (vs : list double) :
  0 < C <= INT32_MAX ->
  exists c,
    Recorded C vs = Some c
    /\ (forall k : nat,
          (k < length vs)%nat -> (length vs <= k + Z.to_nat C)%nat ->
          Samples c !! Z.to_nat (Z.of_nat k mod C) = vs !! k)
    /\ (forall i : nat,
          (length vs <= i)%nat -> (i < Z.to_nat C)%nat ->
          Samples c !! i = Some PrimFloat.zero).
Proof.
  intros HC.
  destruct (Recorded_Some C vs HC) as (c & Hrec & Hinv & Hs & Hwin).
  pose proof (Recorded_index C vs c HC Hrec) as Hidx.
  exists c. split; [done|]. split.
  - intros k Hk1 Hk2.
    pose proof (Window_lookup c Hinv (k + Z.to_nat C - length vs)) as Hlk.
    rewrite Hs, Hidx, Hwin in Hlk. rewrite lookup_drop in Hlk.
    replace (length vs + (k + Z.to_nat C - length vs))%nat
      with (Z.to_nat C + k)%nat in Hlk by lia.
    rewrite lookup_app_r in Hlk by (rewrite length_replicate; lia).
    rewrite length_replicate in Hlk.
    replace (Z.to_nat C + k - Z.to_nat C)%nat with k in Hlk by lia.
    rewrite Hlk by lia. f_equal. f_equal.
    rewrite Zplus_mod_idemp_l.
    replace (Z.of_nat (length vs) + Z.of_nat (k + Z.to_nat C - length vs))
      with (Z.of_nat k + 1 * C) by lia.
    by rewrite Z_mod_plus_full.
  - intros i Hi1 Hi2.
    pose proof (Window_lookup c Hinv (i - length vs)) as Hlk.
    rewrite Hs, Hidx, Hwin in Hlk. rewrite lookup_drop in Hlk.
    replace (length vs + (i - length vs))%nat with i in Hlk by lia.
    rewrite lookup_app_l in Hlk by (rewrite length_replicate; lia).
    rewrite lookup_replicate_2 in Hlk by lia.
    rewrite Zplus_mod_idemp_l in Hlk.
    replace (Z.of_nat (length vs) + Z.of_nat (i - length vs))
      with (Z.of_nat i) in Hlk by lia.
    rewrite Z.mod_small, Nat2Z.id in Hlk by lia.
    symmetry. apply Hlk. lia.
Qed.

Lemma Samples_layout_witness :
  exists c,
    Recorded 3 [1; 2; 3; 4; 5]%float = Some c
    /\ Samples c !! Z.to_nat (Z.of_nat 3 mod 3) = [1; 2; 3; 4; 5]%float !! 3%nat.
Proof.
  destruct (Samples_layout 3 [1; 2; 3; 4; 5]%float) as (c & Hrec & Hk & _);
    [unfold INT32_MAX; lia|].
  exists c. split; [exact Hrec|]. apply Hk; simpl; lia.
Defined.

(** X5: [GetCurrentCachedStat] returns 0.0 until [C] samples have been
    recorded, whatever samples were recorded so far. *)
Theorem GetCurrentCachedStat_zero_until_full (C : Z) (vs : list double) :
  0 < C <= INT32_MAX -> (length vs < Z.to_nat C)%nat ->
  exists c,
    Recorded C vs = Some c /\ GetCurrentCachedStat c = Some PrimFloat.zero.
Proof.
  intros HC Hlen.
  destruct (Recorded_partial C vs HC) as (c & Hrec & Hinv & _ & Hwin); [lia|].
  exists c. split; [done|].
  rewrite GetCurrentCachedStat_head, Hwin by done.
  destruct (Z.to_nat C - length vs)%nat as [|n] eqn:E; [lia | done].
Qed.

Lemma GetCurrentCachedStat_zero_until_full_witness :
  exists c,
    Recorded 3 [7; 8]%float = Some c /\ GetCurrentCachedStat c = Some 0%float.
Proof.
  apply (GetCurrentCachedStat_zero_until_full 3 [7; 8]%float);
    [unfold INT32_MAX; lia | simpl; lia].
Defined.

(** X6: on a buffer that satisfies the invariant, the last sample that
    [ForEachCurrentSample] visits is the one [GetLastCachedStat] returns. *)
Theorem GetLastCachedStat_last_visited (c : FSampledStatCache) :
  CacheInv c ->
  exists w x,
    VisitedSamples c = Some w /\ last w = Some x /\ GetLastCachedStat c = Some x.
Proof.
  intros Hinv.
  pose proof (Window_length c Hinv) as Hwl.
  pose proof Hinv as [Hsz Hnum Hidx].
  assert (last (Window c) = GetLastCachedStat c) as Hlast.
  { rewrite last_lookup, Hwl, (Window_lookup c Hinv) by lia.
    rewrite GetLastCachedStat_lookup by done. do 3 f_equal. lia. }
  destruct (last (Window c)) as [x|] eqn:E.
  - exists (Window c), x. by rewrite VisitedSamples_Window.
  - apply last_None in E. rewrite E in Hwl. simpl in Hwl. lia.
Qed.

Lemma GetLastCachedStat_last_visited_witness :
  exists w x,
    VisitedSamples (MkSampledStatCache 3 2 [4; 5; 3]%float) = Some w
    /\ last w = Some x
    /\ GetLastCachedStat (MkSampledStatCache 3 2 [4; 5; 3]%float) = Some x.
Proof.
  apply (GetLastCachedStat_last_visited (MkSampledStatCache 3 2 [4; 5; 3]%float)).
  split; simpl; unfold INT32_MAX; (reflexivity || lia).
Defined.

(** X7: on a buffer that satisfies the invariant and holds no NaN, [GetMin]
    is at most [GetMax], and what [GetCurrentCachedStat] and
    [GetLastCachedStat] return lies between the two. *)
Theorem GetMin_GetMax_bound_queries (c : FSampledStatCache) :
  CacheInv c ->
  (forall x, x ∈ Samples c -> PrimFloat.is_nan x = false) ->
  exists mn mx cur lst,
    GetMin c = Some mn /\ GetMax c = Some mx
    /\ GetCurrentCachedStat c = Some cur /\ GetLastCachedStat c = Some lst
    /\ PrimFloat.leb mn mx = true
    /\ PrimFloat.leb mn cur = true /\ PrimFloat.leb cur mx = true
    /\ PrimFloat.leb mn lst = true /\ PrimFloat.leb lst mx = true.
Proof.
  intros Hinv Hnan.
  destruct (GetMin_GetMax_bounds c Hinv Hnan)
    as (mn & mx & Hmn & Hmx & Hin1 & Hin2 & Hb).
  pose proof Hinv as [Hsz Hnum Hidx]. unfold TArray.Num in Hnum.
  destruct (lookup_lt_is_Some_2 (Samples c) (Z.to_nat (CurrentSampleIndex c)))
    as [cur Hcur]; [lia|].
  destruct (lookup_lt_is_Some_2 (Samples c)
              (Z.to_nat ((CurrentSampleIndex c - 1 + SampleSize c) mod SampleSize c)))
    as [lst Hlst].
  { pose proof (Z.mod_pos_bound (CurrentSampleIndex c - 1 + SampleSize c)
                  (SampleSize c)). lia. }
  exists mn, mx, cur, lst.
  rewrite GetCurrentCachedStat_lookup, GetLastCachedStat_lookup by done.
  apply list_elem_of_lookup_2 in Hcur as Hcin.
  apply list_elem_of_lookup_2 in Hlst as Hlin.
  repeat (split; [done|]).
  split; [by apply Hb|].
  split; [by apply Hb|]. split; [by apply Hb|].
  split; by apply Hb.
Qed.

Lemma GetMin_GetMax_bound_queries_witness :
  exists mn mx cur lst,
    GetMin (MkSampledStatCache 3 2 [4; 5; 3]%float) = Some mn
    /\ GetMax (MkSampledStatCache 3 2 [4; 5; 3]%float) = Some mx
    /\ GetCurrentCachedStat (MkSampledStatCache 3 2 [4; 5; 3]%float) = Some cur
    /\ GetLastCachedStat (MkSampledStatCache 3 2 [4; 5; 3]%float) = Some lst
    /\ PrimFloat.leb mn mx = true
    /\ PrimFloat.leb mn cur = true /\ PrimFloat.leb cur mx = true
    /\ PrimFloat.leb mn lst = true /\ PrimFloat.leb lst mx = true.
Proof.
  apply (GetMin_GetMax_bound_queries (MkSampledStatCache 3 2 [4; 5; 3]%float)).
  - split; simpl; unfold INT32_MAX; (reflexivity || lia).
  - intros x Hx. simpl in Hx.
    repeat (apply elem_of_cons in Hx as [->|Hx]; [reflexivity|]).
    by apply elem_of_nil in Hx.
Defined.

(** X8: NaN and the extrema. On a buffer that satisfies the invariant,
    [GetMin] and [GetMax] return a NaN exactly when slot 0 holds one, and then
    they return that slot: a NaN in slot 0 hides every other sample, a NaN in
    another slot is passed over. *)
Theorem GetMin_GetMax_nan_first_slot (c : FSampledStatCache) :
  CacheInv c ->
  exists x0 mn mx,
    Samples c !! 0%nat = Some x0
    /\ GetMin c = Some mn /\ GetMax c = Some mx
    /\ PrimFloat.is_nan mn = PrimFloat.is_nan x0
    /\ PrimFloat.is_nan mx = PrimFloat.is_nan x0
    /\ (PrimFloat.is_nan x0 = true -> mn = x0 /\ mx = x0).
Proof.
  intros Hinv.
  destruct (GetMin_GetMax_is_Some c Hinv) as [[mn Hmn] [mx Hmx]].
  unfold GetMin, GetMax in *.
  destruct (Samples c) as [|x0 l] eqn:E; [done|].
  destruct (MinElement_nan_head x0 l mn Hmn) as [Hn1 He1].
  destruct (MaxElement_nan_head x0 l mx Hmx) as [Hn2 He2].
  exists x0, mn, mx. repeat (split; [done|]). auto.
Qed.

Lemma GetMin_GetMax_nan_first_slot_witness :
  exists x0 mn mx,
    Samples (MkSampledStatCache 3 1 [nan; 5; 3]%float) !! 0%nat = Some x0
    /\ GetMin (MkSampledStatCache 3 1 [nan; 5; 3]%float) = Some mn
    /\ GetMax (MkSampledStatCache 3 1 [nan; 5; 3]%float) = Some mx
    /\ PrimFloat.is_nan mn = PrimFloat.is_nan x0
    /\ PrimFloat.is_nan mx = PrimFloat.is_nan x0
    /\ (PrimFloat.is_nan x0 = true -> mn = x0 /\ mx = x0).
Proof.
  apply (GetMin_GetMax_nan_first_slot (MkSampledStatCache 3 1 [nan; 5; 3]%float)).
  split; simpl; unfold INT32_MAX; (reflexivity || lia).
Defined.

(** X9: NaN and the average. On a buffer that satisfies the invariant,
    [GetAverage] returns a NaN as soon as one slot holds a NaN. *)
Theorem GetAverage_nan (c : FSampledStatCache) (x : double) :
  CacheInv c -> x ∈ Samples c -> PrimFloat.is_nan x = true ->
  exists a, GetAverage c = Some a /\ PrimFloat.is_nan a = true.
Proof.
  intros Hinv Hin Hx. unfold GetAverage.
  rewrite ForEachCurrentSample_Window by done. simpl.
  eexists. split; [reflexivity|].
  apply div_nan_l, (foldl_add_nan_elem _ _ x); [|done].
  by apply Window_elem_of.
Qed.

Lemma GetAverage_nan_witness :
  exists a,
    GetAverage (MkSampledStatCache 3 1 [4; nan; 3]%float) = Some a
    /\ PrimFloat.is_nan a = true.
Proof.
  apply (GetAverage_nan (MkSampledStatCache 3 1 [4; nan; 3]%float) nan).
  - split; simpl; unfold INT32_MAX; (reflexivity || lia).
  - simpl. apply elem_of_cons. right. apply elem_of_cons. by left.
  - reflexivity.
Defined.

(** X10: zero bias of the extrema. Until the buffer of capacity [C] is full,
    a slot of the zero fill is left, so with no NaN among the recorded
    samples [GetMin] is at most 0.0 and [GetMax] at least 0.0. *)
Theorem GetMin_GetMax_zero_bias (C : Z) (vs : list double) :
  0 < C <= INT32_MAX -> (length vs < Z.to_nat C)%nat ->
  (forall x, x ∈ vs -> PrimFloat.is_nan x = false) ->
  exists c mn mx,
    Recorded C vs = Some c
    /\ GetMin c = Some mn /\ GetMax c = Some mx
    /\ PrimFloat.leb mn PrimFloat.zero = true
    /\ PrimFloat.leb PrimFloat.zero mx = true.
Proof.
  intros HC Hlen Hnan.
  destruct (Recorded_partial C vs HC) as (c & Hrec & Hinv & _ & Hwin); [lia|].
  assert (forall x, x ∈ Samples c -> PrimFloat.is_nan x = false) as Hnan'.
  { intros x Hx. apply Window_elem_of in Hx. rewrite Hwin in Hx.
    apply elem_of_app in Hx as [Hx|Hx]; [|by apply Hnan].
    by apply elem_of_replicate in Hx as [-> _]. }
  assert (PrimFloat.zero ∈ Samples c) as Hzero.
  { apply Window_elem_of. rewrite Hwin. apply elem_of_app. left.
    apply elem_of_replicate. split; [done | lia]. }
  destruct (GetMin_GetMax_bounds c Hinv Hnan')
    as (mn & mx & Hmn & Hmx & _ & _ & Hb).
  exists c, mn, mx. repeat (split; [done|]). by apply Hb.
Qed.

Lemma GetMin_GetMax_zero_bias_witness :
  exists c mn mx,
    Recorded 3 [7; 8]%float = Some c
    /\ GetMin c = Some mn /\ GetMax c = Some mx
    /\ PrimFloat.leb mn 0%float = true
    /\ PrimFloat.leb 0%float mx = true.
Proof.
  apply (GetMin_GetMax_zero_bias 3 [7; 8]%float);
    [unfold INT32_MAX; lia | simpl; lia |].
  intros x Hx.
  repeat (apply elem_of_cons in Hx as [->|Hx]; [reflexivity|]).
  by apply elem_of_nil in Hx.
Defined.
